(** * Voice command engine and core script of the inclusive voting app

    A shallow embedding of [voice.js] (speech recognition session, command
    normalisation, per-page command handlers) and of the core script
    (local storage helpers, vote storage, login validation).

    Conventions of the embedding
    - A JavaScript string is a [string] whose characters are the code units
      U+0000..U+00FF (Latin-1).  This range is closed under every string
      operation the scripts use ([toLowerCase], [trim], [replace],
      [includes], regular expression matching).
    - A JavaScript number that the scripts only ever obtain from [parseInt]
      is a [Z]; [None] stands for the falsy non-numbers [null] and [NaN].
      Exact integers are kept where the engine would round above 2^53; every
      comparison the scripts make on them ([>= 1], [<= 10], [===] against a
      number in 1..10, truthiness) is unaffected by that rounding.
    - The document, the host page's helper functions and the speech engines
      are collaborators: they are records of query results and the calls made
      on them are recorded as a trace of [effect]s. *)

From Stdlib Require Import ZArith Lia Bool List Ascii String DecimalString.
From Stdlib Require DecimalPos DecimalZ.
From stdpp Require Import gmap strings list fin_maps.

Import ListNotations.
Open Scope string_scope.
Open Scope Z_scope.

(** ** Characters and strings *)

Module JsString.

Definition code (c : ascii) : N := N_of_ascii c.

Definition in_range (lo hi : N) (c : ascii) : bool :=
  ((lo <=? code c) && (code c <=? hi))%N.

(** [\d] : the ten ASCII digits. *)
Definition is_digit (c : ascii) : bool := in_range 48 57 c.

(** [\w] : [A-Za-z0-9_]. *)
Definition is_word (c : ascii) : bool :=
  in_range 65 90 c || in_range 97 122 c || is_digit c || (code c =? 95)%N.

(** [\s], and what [trim] strips: TAB, LF, VT, FF, CR, SPACE and NBSP are the
    white space and line terminator code units below U+0100. *)
Definition is_space (c : ascii) : bool :=
  in_range 9 13 c || (code c =? 32)%N || (code c =? 160)%N.

(** [toLowerCase] on one code unit: A-Z, and the Latin-1 capitals U+00C0..U+00DE
    without the multiplication sign U+00D7. *)
Definition lower_char (c : ascii) : ascii :=
  if in_range 65 90 c || in_range 192 214 c || in_range 216 222 c
  then ascii_of_N (code c + 32) else c.

(** Canonicalisation of the [i] flag (no [u] flag): upper-casing, kept inside
    the code units below U+0100. *)
Definition canon_char (c : ascii) : ascii :=
  if in_range 97 122 c || in_range 224 246 c || in_range 248 254 c
  then ascii_of_N (code c - 32) else c.

Fixpoint map (f : ascii -> ascii) (s : string) : string :=
  match s with
  | EmptyString => EmptyString
  | String c s' => String (f c) (map f s')
  end.

Fixpoint filter (p : ascii -> bool) (s : string) : string :=
  match s with
  | EmptyString => EmptyString
  | String c s' => if p c then String c (filter p s') else filter p s'
  end.

Fixpoint forallb (p : ascii -> bool) (s : string) : bool :=
  match s with
  | EmptyString => true
  | String c s' => p c && forallb p s'
  end.

Definition is_empty (s : string) : bool :=
  match s with EmptyString => true | _ => false end.

Definition toLowerCase (s : string) : string := map lower_char s.

Fixpoint trimStart (s : string) : string :=
  match s with
  | String c s' => if is_space c then trimStart s' else s
  | EmptyString => EmptyString
  end.

Fixpoint trimEnd (s : string) : string :=
  match s with
  | EmptyString => EmptyString
  | String c s' =>
      let t := trimEnd s' in
      if is_space c && is_empty t then EmptyString else String c t
  end.

Definition trim (s : string) : string := trimEnd (trimStart s).

Fixpoint startsWith (p s : string) : bool :=
  match p, s with
  | EmptyString, _ => true
  | String a p', String b s' => Ascii.eqb a b && startsWith p' s'
  | String _ _, EmptyString => false
  end.

(** [s.includes(p)] *)
Fixpoint includes (s p : string) : bool :=
  startsWith p s ||
  match s with
  | EmptyString => false
  | String _ s' => includes s' p
  end.

Fixpoint drop (n : nat) (s : string) : string :=
  match n, s with
  | O, _ => s
  | S n', String _ s' => drop n' s'
  | S _, EmptyString => EmptyString
  end.

Fixpoint take (n : nat) (s : string) : string :=
  match n, s with
  | S n', String c s' => String c (take n' s')
  | _, _ => EmptyString
  end.

(** [s.replace(p, r)] with a string pattern: the first occurrence only. *)
Fixpoint replace_first (p r s : string) : string :=
  if startsWith p s then r +:+ drop (String.length p) s
  else match s with
       | EmptyString => EmptyString
       | String c s' => String c (replace_first p r s')
       end.

(** Value of a run of decimal digits, most significant first. *)
Fixpoint digits_value (acc : Z) (s : string) : Z :=
  match s with
  | EmptyString => acc
  | String c s' => digits_value (10 * acc + (Z.of_N (code c) - 48)) s'
  end.

Fixpoint span (p : ascii -> bool) (s : string) : string * string :=
  match s with
  | String c s' =>
      if p c then let (a, b) := span p s' in (String c a, b)
      else (EmptyString, s)
  | EmptyString => (EmptyString, EmptyString)
  end.

Definition is_hex_digit (c : ascii) : bool :=
  is_digit c || in_range 65 70 c || in_range 97 102 c.

Definition hex_digit_value (c : ascii) : Z :=
  if is_digit c then Z.of_N (code c) - 48
  else if in_range 65 70 c then Z.of_N (code c) - 55
  else Z.of_N (code c) - 87.

Fixpoint hex_value (acc : Z) (s : string) : Z :=
  match s with
  | EmptyString => acc
  | String c s' => hex_value (16 * acc + hex_digit_value c) s'
  end.

(** [parseInt(s)] with no radix argument: leading white space, an optional
    sign, an optional [0x]/[0X] prefix, then the longest run of digits of
    the radix; [None] is [NaN]. *)
Definition parseInt (s : string) : option Z :=
  let s1 := trimStart s in
  let '(sign, s2) :=
    match s1 with
    | String "-" r => (-1, r)
    | String "+" r => (1, r)
    | _ => (1, s1)
    end in
  if startsWith "0x" s2 || startsWith "0X" s2 then
    let (ds, _) := span is_hex_digit (drop 2 s2) in
    if is_empty ds then None else Some (sign * hex_value 0 ds)
  else
    let (ds, _) := span is_digit s2 in
    if is_empty ds then None else Some (sign * digits_value 0 ds).

(** The decimal rendering of an integer, as a template literal prints it. *)
Definition of_Z (z : Z) : string := NilZero.string_of_int (Z.to_int z).

(** The double quote, for the texts and selectors that contain one. *)
Definition dq : string := String (ascii_of_N 34) EmptyString.

End JsString.

(** ** Regular expressions

    The fragment of the regular expression syntax the scripts use, with a
    backtracking matcher: greedy repetition of a character class, one
    capturing group, the assertions [\b], [^] and [$], and the [i] flag. *)

Module Regex.
Import JsString.

Inductive charset : Type :=
| Digit                       (* \d *)
| Space                       (* \s *)
| Word                        (* \w *)
| Union (a b : charset)       (* [ab] *)
| Neg (a : charset).          (* [^a] *)

Fixpoint charset_mem (cs : charset) (c : ascii) : bool :=
  match cs with
  | Digit => is_digit c
  | Space => is_space c
  | Word => is_word c
  | Union a b => charset_mem a c || charset_mem b c
  | Neg a => negb (charset_mem a c)
  end.

Inductive regex : Type :=
| Lit (s : string)                 (* a run of literal characters *)
| Star (cs : charset)              (* cs*   *)
| Plus (cs : charset)              (* cs+   *)
| Times (n : nat) (cs : charset)   (* cs{n} *)
| Group (r : regex)                (* ( r ) *)
| Boundary                         (* \b *)
| Bol                              (* ^ *)
| Eol                              (* $ *)
| Seq (r1 r2 : regex).

Infix "&>" := Seq (at level 62, right associativity).

(** A position in the input: the character before it, and what is left. *)
Record pos : Type := Pos { before : option ascii; rest : string }.

Definition word_before (p : pos) : bool :=
  match before p with Some c => is_word c | None => false end.

Definition word_after (p : pos) : bool :=
  match rest p with String c _ => is_word c | EmptyString => false end.

Section Matcher.
Variable ignoreCase : bool.
Variable R : Type.

Definition char_eq (a b : ascii) : bool :=
  if ignoreCase then Ascii.eqb (canon_char a) (canon_char b)
  else Ascii.eqb a b.

(** The continuation receives the position reached and the capture. *)
Definition cont : Type := pos -> option string -> option R.

Fixpoint m_lit (l : string) (p : pos) (cap : option string) (k : cont)
  : option R :=
  match l with
  | EmptyString => k p cap
  | String a l' =>
      match rest p with
      | String b s' =>
          if char_eq a b then m_lit l' (Pos (Some b) s') cap k else None
      | EmptyString => None
      end
  end.

(** Greedy: take one more character first, give it back on failure. *)
Fixpoint m_star (cs : charset) (bef : option ascii) (s : string)
    (cap : option string) (k : cont) : option R :=
  match s with
  | String c s' =>
      if charset_mem cs c then
        match m_star cs (Some c) s' cap k with
        | Some r => Some r
        | None => k (Pos bef s) cap
        end
      else k (Pos bef s) cap
  | EmptyString => k (Pos bef s) cap
  end.

Definition m_plus (cs : charset) (p : pos) (cap : option string) (k : cont)
  : option R :=
  match rest p with
  | String c s' =>
      if charset_mem cs c then m_star cs (Some c) s' cap k else None
  | EmptyString => None
  end.

Fixpoint m_times (n : nat) (cs : charset) (p : pos) (cap : option string)
    (k : cont) : option R :=
  match n with
  | O => k p cap
  | S n' =>
      match rest p with
      | String c s' =>
          if charset_mem cs c then m_times n' cs (Pos (Some c) s') cap k
          else None
      | EmptyString => None
      end
  end.

Fixpoint m (r : regex) (p : pos) (cap : option string) (k : cont)
  : option R :=
  match r with
  | Lit l => m_lit l p cap k
  | Star cs => m_star cs (before p) (rest p) cap k
  | Plus cs => m_plus cs p cap k
  | Times n cs => m_times n cs p cap k
  | Group r' =>
      m r' p cap
        (fun q _ =>
           k q (Some (take (String.length (rest p) - String.length (rest q))
                           (rest p))))
  | Boundary => if xorb (word_before p) (word_after p) then k p cap else None
  | Bol => match before p with None => k p cap | Some _ => None end
  | Eol => match rest p with EmptyString => k p cap | _ => None end
  | Seq r1 r2 => m r1 p cap (fun q c => m r2 q c k)
  end.
End Matcher.

(** The capture of group 1 of a successful match ([match[1]]). *)
Definition match_at (i : bool) (r : regex) (p : pos) : option (option string) :=
  m i (option string) r p None (fun _ cap => Some cap).

(** [s.match(r)] / [r.exec(s)] without the [g] flag: the leftmost start
    position at which the pattern matches. [None] is [null]. *)
Fixpoint search (i : bool) (r : regex) (bef : option ascii) (s : string)
  : option (option string) :=
  match match_at i r (Pos bef s) with
  | Some cap => Some cap
  | None =>
      match s with
      | String c s' => search i r (Some c) s'
      | EmptyString => None
      end
  end.

Definition exec (i : bool) (r : regex) (s : string) : option (option string) :=
  search i r None s.

(** [r.test(s)] *)
Definition test (i : bool) (r : regex) (s : string) : bool :=
  match exec i r s with Some _ => true | None => false end.

(** [s.replace(/[cs]/g, '')] for a pattern that is one character class:
    every character of the class is removed. *)
Definition remove_all (cs : charset) (s : string) : string :=
  filter (fun c => negb (charset_mem cs c)) s.

End Regex.

(** ** The interaction surface and the trace of calls *)

Module Dom.

(** What the scripts read from an element they have looked up. *)
Record Element : Type := {
  el_id : string;                               (* e.id *)
  el_disabled : bool;                           (* e.disabled *)
  el_display : string;                          (* e.style.display *)
  el_candidate_number : option string;
    (* e.getAttribute('data-candidate-number'); None is null *)
  el_closest_candidate_number : option string;
    (* e.closest('[data-candidate-number]')?.getAttribute(...);
       None is undefined *)
  el_has_onclick : bool                         (* truthiness of e.onclick *)
}.

(** The document at one instant, by the three queries the scripts make. *)
Record Document : Type := {
  getElementById : string -> option Element;
  querySelector : string -> option Element;
  querySelectorAll : string -> list Element
}.

(** [e.style.display !== 'none'] *)
Definition displayed (e : Element) : bool :=
  negb (String.eqb (el_display e) "none").

(** [e && e.style.display !== 'none'] *)
Definition present_and_displayed (e : option Element) : bool :=
  match e with Some x => displayed x | None => false end.

Definition is_some {A} (o : option A) : bool :=
  match o with Some _ => true | None => false end.

(** [a || b] on lookup results. *)
Definition or_else {A} (a : option A) (b : option A) : option A :=
  match a with Some _ => a | None => b end.

End Dom.

Module Trace.
Import Dom.

(** The callbacks handed to [setTimeout], one constructor per callback of the
    script. [run_task] below gives what each does when it fires. *)
Inductive task : Type :=
| RestartIfAlwaysOn                     (* onerror, 500 ms *)
| RestartRecognition                    (* onend, 300 ms *)
| ClickWithFallback (e : Element)       (* click in a try, with the catch *)
| ClickTarget (e : Element)             (* voteBtn.click() of the retry *)
| RetryFindVoteButton (candidateNumber : Z)
| AnnouncePage (page : string).         (* initVoiceForPage, 1000 ms *)

(** The calls the scripts make on their collaborators. *)
Inductive effect : Type :=
| Speak (text : string)                 (* speak(text) *)
| SetTimeout (ms : Z) (t : task)        (* setTimeout(callback, ms) *)
| Click (e : Element)                   (* e.click() *)
| CallOnclick (e : Element)             (* e.onclick() *)
| DispatchClick (e : Element)
    (* e.dispatchEvent(new MouseEvent('click', ...)) *)
| SetValue (e : Element) (v : string)   (* e.value = v *)
| RedirectTo (page : string)            (* redirectTo(page) *)
| SetLocation (url : string)            (* window.location.href = url *)
| ClearSession                          (* clearSession() *)
| ReadPageContent                       (* readPageContent() *)
| ReadCandidateList                     (* readCandidateList() *)
| ShowStatusMessage (message kind : string)
| NewRecognition                        (* new SpeechRecognition() *)
| RecognitionStart                      (* recognition.start() *)
| RecognitionStop                       (* recognition.stop() *)
| StatusText (text : string)            (* statusEl.textContent = text *)
| StatusIndicator (listening : bool)    (* indicatorEl.classList.add/remove *)
| TogglePressed (pressed : bool).       (* btnEl aria-pressed and title *)

(** How a computation ends: normally with a value, or by a raised exception. *)
Inductive outcome (A : Type) : Type :=
| Ok (a : A)
| Raised.
Arguments Ok {A} a.
Arguments Raised {A}.

(** A computation that makes calls and may raise: the calls made so far (the
    one that raised included) and the outcome. *)
Definition Eff (A : Type) : Type := list effect * outcome A.

#[global] Instance eff_ret : MRet Eff := fun A a => ([], Ok a).

#[global] Instance eff_bind : MBind Eff := fun A B f x =>
  match x with
  | (t, Ok a) => let (t', o) := f a in ((t ++ t')%list, o)
  | (t, Raised) => (t, Raised)
  end.

(** [try { body } catch (error) { handler }] *)
Definition try_catch {A} (body : Eff A) (handler : Eff A) : Eff A :=
  match body with
  | (t, Raised) => let (t', o) := handler in ((t ++ t')%list, o)
  | (t, Ok a) => (t, Ok a)
  end.

Definition raised {A} (x : Eff A) : bool :=
  match snd x with Raised => true | Ok _ => false end.

(** The page the scripts run in, at one instant. [throws] tells which calls
    on the host page, on the recognition engine or on the speech synthesis
    raise an exception there; [setTimeout] never does. *)
Record World : Type := {
  document : Document;
  has_redirectTo : bool;        (* typeof redirectTo === 'function' *)
  has_clearSession : bool;      (* typeof clearSession === 'function' *)
  has_showStatusMessage : bool; (* typeof showStatusMessage === 'function' *)
  has_SpeechRecognition : bool;
    (* window.SpeechRecognition || window.webkitSpeechRecognition *)
  throws : effect -> bool
}.

Definition emit (e : effect) : Eff unit := ([e], Ok tt).

Definition call (w : World) (e : effect) : Eff unit :=
  ([e], if throws w e then Raised else Ok tt).

(** [speak(text)] where the speech synthesis does not raise; [Speech.speak]
    below is the call as the host answers it. *)
Definition speak (text : string) : Eff unit := emit (Speak text).

Definition setTimeout (t : task) (ms : Z) : Eff unit := emit (SetTimeout ms t).

Definition skip : Eff unit := mret tt.

End Trace.

(** ** voice.js: command handling *)

Module Voice.
Import JsString Regex Dom Trace.

(** A text between double quotes. *)
Definition q (s : string) : string := dq +:+ s +:+ dq.

(** [normalizeCommand]:
    [text.toLowerCase().trim().replace(/[^\w\s]/g, '')] *)
Definition normalizeCommand (text : string) : string :=
  remove_all (Neg (Union Word Space)) (trim (toLowerCase text)).

(** *** The candidate number of a command (handleVotingCommands, the block
    from [let candidateNumber = null] to [Final candidate number]) *)

(** [patterns], each with its [i] flag. *)
Definition patterns : list (bool * regex) :=
  [ (true, Lit "candidate" &> Star Space &> Group (Plus Digit));
    (true, Lit "number" &> Star Space &> Group (Plus Digit));
    (true, Lit "vote" &> Star Space &> Group (Plus Digit));
    (true, Lit "select" &> Star Space &> Group (Plus Digit));
    (true, Lit "choose" &> Star Space &> Group (Plus Digit));
    (false, Boundary &> Group (Plus Digit) &> Boundary) ].

(** [wordNumbers], in the order of [Object.entries]. *)
Definition wordNumbers : list (string * Z) :=
  [ ("one", 1); ("two", 2); ("three", 3); ("four", 4); ("five", 5);
    ("six", 6); ("seven", 7); ("eight", 8); ("nine", 9); ("ten", 10) ].

(** [parseInt(match[1])]; a group that did not take part is [undefined]. *)
Definition parseInt_capture (cap : option string) : option Z :=
  match cap with Some s => parseInt s | None => None end.

(** The [for (const pattern of patterns)] loop with its [break]. *)
Fixpoint match_patterns (ps : list (bool * regex)) (command : string)
  : option Z :=
  match ps with
  | [] => None
  | (i, r) :: ps' =>
      match exec i r command with
      | Some cap => parseInt_capture cap
      | None => match_patterns ps' command
      end
  end.

(** Truthiness of [candidateNumber]: [null], [NaN] and [0] are falsy. *)
Definition truthy (n : option Z) : bool :=
  match n with Some z => negb (z =? 0) | None => false end.

(** The [for (const [word, num] of Object.entries(wordNumbers))] loop. *)
Fixpoint scan_words (table : list (string * Z)) (command : string)
  : option Z :=
  match table with
  | [] => None
  | (word, num) :: table' =>
      if includes command word then Some num else scan_words table' command
  end.

(** The value of [candidateNumber] after both loops. *)
Definition extractOrdinal (command : string) : option Z :=
  let candidateNumber := match_patterns patterns command in
  if truthy candidateNumber then candidateNumber
  else match scan_words wordNumbers command with
       | Some num => Some num
       | None => candidateNumber
       end.

(** [candidateNumber && candidateNumber >= 1 && candidateNumber <= 10] *)
Definition valid_candidate (candidateNumber : option Z) : bool :=
  match candidateNumber with
  | Some z => truthy candidateNumber && (1 <=? z) && (z <=? 10)
  | None => false
  end.

(** [Object.keys(wordNumbers).some(word => command.includes(word))] *)
Definition some_word (command : string) : bool :=
  existsb (fun wn => includes command (fst wn)) wordNumbers.

(** [isVotingVisible] *)
Definition isVotingVisible (d : Document) : bool :=
  present_and_displayed (getElementById d "voting-section").

(** [isVoteCommand] *)
Definition isVoteCommand (d : Document) (command : string)
    (candidateNumber : option Z) : bool :=
  includes command "vote" ||
  includes command "select" ||
  includes command "choose" ||
  (isVotingVisible d &&
     (includes command "candidate" || includes command "number")) ||
  some_word command ||
  (isVotingVisible d && truthy candidateNumber).

(** *** findVoteButton *)

Definition attr_candidate (n : Z) : string :=
  "[data-candidate-number=" +:+ q (of_Z n) +:+ "]".

(** [btnNum]: the first truthy of the three operands, else the last. *)
Definition btnNum (btn : Element) : string :=
  match el_candidate_number btn with
  | Some (String c s) => String c s
  | _ =>
      match el_closest_candidate_number btn with
      | Some (String c s) => String c s
      | _ => replace_first "vote-btn-" "" (el_id btn)
      end
  end.

(** [btnNum && parseInt(btnNum) === candidateNumber] *)
Definition button_matches (n : Z) (btn : Element) : bool :=
  negb (is_empty (btnNum btn)) &&
  match parseInt (btnNum btn) with Some z => z =? n | None => false end.

Definition findVoteButton (d : Document) (candidateNumber : Z)
  : option Element :=
  let n := candidateNumber in
  or_else (querySelector d (attr_candidate n +:+ " .btn-vote"))
  (or_else (querySelector d (".card" +:+ attr_candidate n +:+ " .btn-vote"))
  (or_else (querySelector d (attr_candidate n +:+ " button"))
  (or_else (querySelector d (".btn-vote" +:+ attr_candidate n))
  (or_else (getElementById d ("vote-btn-" +:+ of_Z n))
           (List.find (button_matches n) (querySelectorAll d ".btn-vote")))))).

Definition voting_for (n : Z) : string :=
  "Voting for candidate " +:+ of_Z n +:+ "...".

Definition candidate_not_found (n : Z) : string :=
  "Candidate " +:+ of_Z n +:+
  " not found. Please check the candidate list or try again.".

(** The callback of the 200 ms retry. *)
Definition retryFindVoteButton (w : World) (candidateNumber : Z) : Eff unit :=
  match findVoteButton (document w) candidateNumber with
  | Some voteBtn =>
      speak (voting_for candidateNumber) ;;
      setTimeout (ClickTarget voteBtn) 300
  | None => speak (candidate_not_found candidateNumber)
  end.

(** The body of [if (isVoteCommand)]: every path of it returns. The final
    [else] of the source (speak "not found") follows [if (!voteBtn) return]
    and is never reached. *)
Definition voteForCandidate (w : World) (candidateNumber : Z) : Eff unit :=
  match findVoteButton (document w) candidateNumber with
  | None => setTimeout (RetryFindVoteButton candidateNumber) 200
  | Some voteBtn =>
      speak (voting_for candidateNumber) ;;
      setTimeout (ClickWithFallback voteBtn) 300
  end.

(** *** handleVotingCommands *)

Definition is_verify_command (command : string) : bool :=
  includes command "verify identity" || includes command "verify" ||
  includes command "start verification" ||
  includes command "begin verification".

Definition is_confirm_command (command : string) : bool :=
  includes command "confirm" || includes command "yes" ||
  includes command "confirm vote".

Definition is_cancel_command (command : string) : bool :=
  includes command "cancel" || includes command "no".

Definition verifyBranch (w : World) : Eff unit :=
  let d := document w in
  match getElementById d "btn-verify-face" with
  | Some verifyBtn =>
      let isSectionVisible :=
        match getElementById d "face-verify-section" with
        | None => true
        | Some verifySection => displayed verifySection
        end in
      if isSectionVisible && negb (el_disabled verifyBtn) then
        speak "Starting identity verification..." ;;
        call w (Click verifyBtn)
      else if el_disabled verifyBtn then
        speak "Verification is already in progress. Please wait."
      else
        speak "Starting identity verification..." ;;
        call w (Click verifyBtn)
  | None => speak "Verify button not found. Please refresh the page."
  end.

(** The chain of lookups for the confirm button of the modal. *)
Definition findConfirmButton (d : Document) : option Element :=
  or_else (getElementById d "modal-confirm-btn")
  (or_else (querySelector d "#confirmation-modal .btn-success")
  (or_else (querySelector d
              ("#confirmation-modal [data-action=" +:+ q "confirm" +:+ "]"))
  (or_else (querySelector d ".modal-overlay .btn-success")
           (querySelector d ".modal-content .btn-success")))).

(** The chain of lookups for the cancel button of the modal. *)
Definition findCancelButton (d : Document) : option Element :=
  or_else (getElementById d "modal-cancel-btn")
  (or_else (querySelector d "#confirmation-modal .btn-secondary")
  (or_else (querySelector d
              ("#confirmation-modal [data-action=" +:+ q "cancel" +:+ "]"))
  (or_else (querySelector d ".modal-overlay .btn-secondary")
           (querySelector d ".modal-content .btn-secondary")))).

Definition select_candidate_first : string :=
  "Please select a candidate first by saying " +:+ q "Vote for candidate" +:+
  " followed by the number.".

Definition confirmBranch (w : World) : Eff unit :=
  match findConfirmButton (document w) with
  | Some confirmBtn =>
      speak "Confirming your vote..." ;;
      setTimeout (ClickWithFallback confirmBtn) 300
  | None =>
      if isVotingVisible (document w) then speak select_candidate_first
      else skip
  end.

(** From [// Default help message] to the end. *)
Definition votingHelp (w : World) : Eff unit :=
  let d := document w in
  if present_and_displayed (getElementById d "face-verify-section") then
    speak ("Say " +:+ q "Verify identity" +:+ " to begin verification, or " +:+
           q "Go back" +:+ " to return to home.")
  else if present_and_displayed (getElementById d "voting-section") then
    speak ("Say " +:+ q "Vote for candidate" +:+ " followed by the number, " +:+
           q "Read candidate list" +:+ ", or " +:+ q "Go back" +:+ ".")
  else
    speak ("Say " +:+ q "Verify identity" +:+ " to begin, " +:+
           q "Vote for candidate" +:+ " followed by the number, or " +:+
           q "Read candidate list" +:+ ".").

(** From [// Read candidate list] to the end. *)
Definition votingAfterVote (w : World) (command : string) : Eff unit :=
  if includes command "read candidate" || includes command "candidate list" ||
     includes command "list candidates" then
    call w ReadCandidateList
  else if includes command "go back" || includes command "back" ||
          includes command "return" then
    if has_redirectTo w then
      speak "Going back to home page..." ;;
      call w (RedirectTo "home.html")
    else skip
  else votingHelp w.

(** From [// Extract candidate number from command] to the end. *)
Definition votingFromExtraction (w : World) (command : string) : Eff unit :=
  let candidateNumber := extractOrdinal command in
  match candidateNumber with
  | Some n =>
      if valid_candidate candidateNumber &&
         isVoteCommand (document w) command candidateNumber
      then voteForCandidate w n
      else votingAfterVote w command
  | None => votingAfterVote w command
  end.

Definition handleVotingCommands (w : World) (command : string) : Eff unit :=
  if is_verify_command command then verifyBranch w
  else if is_confirm_command command then confirmBranch w
  else
    match
      (if is_cancel_command command then findCancelButton (document w)
       else None)
    with
    | Some cancelBtn =>
        speak "Vote cancelled." ;;
        call w (Click cancelBtn)
    | None => votingFromExtraction w command
    end.

(** *** The other pages *)

Definition handleLoginCommands (w : World) (command : string) : Eff unit :=
  let d := document w in
  if includes command "login" || includes command "log in" then
    match getElementById d "btn-login" with
    | Some loginBtn => speak "Logging in..." ;; call w (Click loginBtn)
    | None => skip
    end
  else if includes command "clear" then
    match getElementById d "aadhar-input" with
    | Some aadharInput => call w (SetValue aadharInput "")
    | None => skip
    end ;;
    match getElementById d "password-input" with
    | Some passwordInput => call w (SetValue passwordInput "")
    | None => skip
    end ;;
    speak "Form cleared."
  else if includes command "back" then speak "You are on the login page."
  else speak ("Say " +:+ q "Login" +:+ " to proceed, or " +:+ q "Clear" +:+
              " to clear the form.").

Definition handleLogoutCommand (w : World) : Eff unit :=
  speak "Logging out..." ;;
  (if has_clearSession w then call w ClearSession else skip) ;;
  if has_redirectTo w then call w (RedirectTo "index.html")
  else call w (SetLocation "index.html").

Definition home_help : string :=
  "Say " +:+ q "Go to voting page" +:+ ", " +:+ q "Read rules" +:+ ", " +:+
  q "Open profile" +:+ ", or " +:+ q "Log out" +:+ ".".

Definition handleHomeCommands (w : World) (command : string) : Eff unit :=
  let d := document w in
  if includes command "voting page" || includes command "vote now" ||
     includes command "go to voting" then
    match querySelector d ("a[href=" +:+ q "voting.html" +:+ "]") with
    | Some voteLink =>
        speak "Navigating to voting page..." ;; call w (Click voteLink)
    | None =>
        if has_redirectTo w then call w (RedirectTo "voting.html") else skip
    end
  else if includes command "read rules" || includes command "rules" then
    call w ReadPageContent
  else if includes command "log out" || includes command "logout" then
    handleLogoutCommand w
  else if includes command "profile" || includes command "open profile" then
    match getElementById d "btn-profile" with
    | Some profileBtn => call w (Click profileBtn)
    | None => skip
    end
  else if includes command "home" then
    speak "You are already on the home page."
  else speak home_help.

Definition handleFaceVerificationCommands (w : World) (command : string)
  : Eff unit :=
  let d := document w in
  if includes command "start" || includes command "verify" ||
     includes command "begin" then
    match getElementById d "btn-start-verification" with
    | Some startBtn =>
        speak "Starting face verification..." ;; call w (Click startBtn)
    | None => skip
    end
  else if includes command "retry" || includes command "try again" then
    match getElementById d "btn-retry" with
    | Some retryBtn => call w (Click retryBtn)
    | None => skip
    end
  else speak ("Say " +:+ q "Start verification" +:+
              " to begin face recognition.").

(** *** handleVoiceCommand *)

(** [verifyBtn || votingSection || candidatesContainer] *)
Definition voting_markers (d : Document) : bool :=
  is_some (getElementById d "btn-verify-face") ||
  is_some (getElementById d "voting-section") ||
  is_some (getElementById d "candidates-container").

(** The [switch (currentPage)]. *)
Definition handleByPage (w : World) (currentPage normalized : string)
  : Eff unit :=
  if String.eqb currentPage "login" then handleLoginCommands w normalized
  else if String.eqb currentPage "home" then handleHomeCommands w normalized
  else if String.eqb currentPage "voting" then
    handleVotingCommands w normalized
  else if String.eqb currentPage "face-verification" then
    handleFaceVerificationCommands w normalized
  else
    if is_some (getElementById (document w) "btn-verify-face") ||
       is_some (getElementById (document w) "voting-section")
    then handleVotingCommands w normalized
    else skip.

Definition handleVoiceCommand (w : World) (currentPage command : string)
  : Eff unit :=
  let normalized := normalizeCommand command in
  if voting_markers (document w) then handleVotingCommands w normalized
  else handleByPage w currentPage normalized.

End Voice.

(** ** voice.js: speech that may raise *)

Module Speech.
Import JsString Dom Trace.

(** [speak(text)]: past the test for [speechSynthesis] it calls
    [speechSynthesis.cancel()], [new SpeechSynthesisUtterance(text)] and
    [speechSynthesis.speak(utterance)], none of them inside a [try]: it
    raises where the host has one of them raise, which [throws w (Speak
    text)] tells. *)
Definition speak (w : World) (text : string) : Eff unit :=
  call w (Speak text).

(** The calls [t] of a handler in a host whose speech may raise: they end
    with the first [speak] that raises, which the flag returned tells. The
    command handlers call [speak] between their other calls and never
    inside a [try] (their [try] blocks stand in timer callbacks, around a
    click), so that a [speak] that raises ends the handler. *)
Fixpoint until_speech_raises (w : World) (t : list effect)
  : list effect * bool :=
  match t with
  | [] => ([], false)
  | e :: t' =>
      match e with
      | Speak _ =>
          if throws w e then ([e], true)
          else let (r, b) := until_speech_raises w t' in (e :: r, b)
      | _ => let (r, b) := until_speech_raises w t' in (e :: r, b)
      end
  end.

Definition hosted {A} (w : World) (x : Eff A) : Eff A :=
  let (t, b) := until_speech_raises w (fst x) in
  (t, if b then Raised else snd x).

(** [handleVoiceCommand] with the speech of the host. *)
Definition handleVoiceCommand (w : World) (currentPage command : string)
  : Eff unit :=
  hosted w (Voice.handleVoiceCommand w currentPage command).

End Speech.

(** ** voice.js: the listening session *)

Module Session.
Import JsString Dom Trace Voice.

(** The global variables of the script. *)
Record State : Type := {
  recognition : bool;        (* recognition !== null *)
  isListening : bool;
  isAlwaysOn : bool;
  currentPage : string
}.

Definition set_recognition (b : bool) (s : State) : State :=
  {| recognition := b; isListening := isListening s;
     isAlwaysOn := isAlwaysOn s; currentPage := currentPage s |}.

Definition set_isListening (b : bool) (s : State) : State :=
  {| recognition := recognition s; isListening := b;
     isAlwaysOn := isAlwaysOn s; currentPage := currentPage s |}.

Definition set_isAlwaysOn (b : bool) (s : State) : State :=
  {| recognition := recognition s; isListening := isListening s;
     isAlwaysOn := b; currentPage := currentPage s |}.

Definition set_currentPage (p : string) (s : State) : State :=
  {| recognition := recognition s; isListening := isListening s;
     isAlwaysOn := isAlwaysOn s; currentPage := p |}.

(** A computation on the globals: the calls made, the globals it leaves (also
    when it raises) and its outcome. *)
Definition M (A : Type) : Type := State -> list effect * State * outcome A.

#[global] Instance m_ret : MRet M := fun A a s => ([], s, Ok a).

#[global] Instance m_bind : MBind M := fun A B f x s =>
  match x s with
  | (t, s', Ok a) => let '(t', s'', o) := f a s' in ((t ++ t')%list, s'', o)
  | (t, s', Raised) => (t, s', Raised)
  end.

Definition lift {A} (e : Eff A) : M A := fun s => (fst e, s, snd e).

Definition get : M State := fun s => ([], s, Ok s).

Definition modify (f : State -> State) : M unit := fun s => ([], f s, Ok tt).

Definition try_catchM {A} (body handler : M A) : M A := fun s =>
  match body s with
  | (t, s', Raised) =>
      let '(t', s'', o) := handler s' in ((t ++ t')%list, s'', o)
  | r => r
  end.

Definition trace_of {A} (r : list effect * State * outcome A) : list effect :=
  fst (fst r).

Definition state_of {A} (r : list effect * State * outcome A) : State :=
  snd (fst r).

Definition outcome_of {A} (r : list effect * State * outcome A) : outcome A :=
  snd r.

Definition when_present (e : option Element) (x : effect) : list effect :=
  match e with Some _ => [x] | None => [] end.

Definition updateVoiceStatus (w : World) : M unit := fun s =>
  let d := document w in
  let text :=
    if isAlwaysOn s && isListening s then "Voice: Listening (Always On)"
    else if isAlwaysOn s then "Voice: Starting..."
    else "Voice: Off" in
  ((when_present (getElementById d "voice-status-text") (StatusText text) ++
    when_present (getElementById d "voice-indicator")
      (StatusIndicator (isAlwaysOn s && isListening s)) ++
    when_present (getElementById d "btn-voice-toggle")
      (TogglePressed (isAlwaysOn s)))%list,
   s, Ok tt).

Definition initSpeechRecognition (w : World) : M bool :=
  if negb (has_SpeechRecognition w) then mret false
  else
    try_catchM
      (lift (call w NewRecognition) ;;
       modify (set_recognition true) ;;
       mret true)
      (mret false).

Definition showVoiceError (w : World) (message : string) : M unit :=
  if has_showStatusMessage w
  then lift (call w (ShowStatusMessage message "error"))
  else mret tt.

Definition startListening (w : World) : M bool :=
  s ← get;
  ready ← (if negb (recognition s) then
             ok ← initSpeechRecognition w;
             if negb ok then
               showVoiceError w
                 "Speech recognition is not available in this browser." ;;
               mret false
             else mret true
           else mret true);
  if negb ready then mret false
  else
    try_catchM
      (lift (call w RecognitionStart) ;;
       modify (set_isListening true) ;;
       updateVoiceStatus w ;;
       mret true)
      (mret false).

Definition stopListening (w : World) : M unit :=
  s ← get;
  if recognition s && isListening s then
    try_catchM
      (lift (call w RecognitionStop) ;;
       modify (set_isListening false) ;;
       updateVoiceStatus w)
      (mret tt)
  else mret tt.

Definition setAlwaysOnMode (w : World) (enabled : bool) : M unit :=
  modify (set_isAlwaysOn enabled) ;;
  (if enabled then startListening w ;; mret tt else stopListening w) ;;
  updateVoiceStatus w.

Definition toggleVoiceAssistance (w : World) : M unit :=
  s ← get;
  if isAlwaysOn s then
    setAlwaysOnMode w false ;;
    lift (speak "Voice assistance turned off.")
  else
    setAlwaysOnMode w true ;;
    lift (speak "Voice assistance turned on. I am listening.").

(** *** The handlers installed by initSpeechRecognition *)

Definition onstart (w : World) : M unit :=
  modify (set_isListening true) ;;
  updateVoiceStatus w.

(** [results]: the transcript of the first alternative of each result.
    The [speak] of the [catch] is outside every [try]: what it raises leaves
    the callback. *)
Definition onresult (w : World) (results : list string) : M unit :=
  let transcript := trim (String.concat " " results) in
  s ← get;
  lift (try_catch
          (Speech.handleVoiceCommand w (currentPage s) transcript)
          (Speech.speak w
             "Sorry, there was an error processing your command. Please try again.")).

(** Where the [speak] of the "not-allowed" branch raises, the call of
    [setAlwaysOnMode] after it is not reached. *)
Definition onerror (w : World) (error : string) : M unit :=
  s ← get;
  if isAlwaysOn s &&
     (String.eqb error "no-speech" || String.eqb error "aborted") then
    lift (setTimeout RestartIfAlwaysOn 500)
  else if String.eqb error "not-allowed" then
    lift (Speech.speak w
            "Microphone access denied. Please enable microphone permissions.") ;;
    setAlwaysOnMode w false
  else mret tt.

Definition onend (w : World) : M unit :=
  modify (set_isListening false) ;;
  updateVoiceStatus w ;;
  s ← get;
  if isAlwaysOn s then lift (setTimeout RestartRecognition 300) else mret tt.

(** *** Page context *)

Definition setCurrentPage (page : string) : M unit :=
  modify (set_currentPage page).

Definition initVoiceForPage (w : World) (page : string) (autoStart : bool)
  : M unit :=
  setCurrentPage page ;;
  s ← get;
  (if autoStart && negb (isAlwaysOn s) then setAlwaysOnMode w true
   else mret tt) ;;
  lift (setTimeout (AnnouncePage page) 1000).

(** *** What a timer callback does when it fires *)

Definition run_task (w : World) (t : task) : M unit :=
  match t with
  | RestartIfAlwaysOn =>
      s ← get;
      if isAlwaysOn s then
        try_catchM (lift (call w RecognitionStart)) (mret tt)
      else mret tt
  | RestartRecognition =>
      try_catchM (lift (call w RecognitionStart)) (mret tt)
  | ClickWithFallback e =>
      try_catchM (lift (call w (Click e)))
        (if el_has_onclick e then lift (call w (CallOnclick e))
         else lift (call w (DispatchClick e)))
  | ClickTarget e => lift (call w (Click e))
  | RetryFindVoteButton n => lift (retryFindVoteButton w n)
  | AnnouncePage page =>
      if String.eqb page "home" then
        lift (speak ("Welcome to the home page. " +:+ home_help))
      else if String.eqb page "voting" then
        lift (speak ("You are on the voting page. Say " +:+
                     q "Vote for candidate" +:+
                     " followed by the number, or " +:+
                     q "Read candidate list" +:+ "."))
      else mret tt
  end.

End Session.

(** ** voice.js: the session under the signals of its host *)

Module Machine.
Import JsString Dom Trace Voice Session.

(** What the host does to a session that the user leaves alone: the engine
    fires one of its four events, or a pending timer callback runs. *)
Inductive signal : Type :=
| Started                           (* recognition.onstart *)
| Heard (results : list string)     (* recognition.onresult *)
| Failed (error : string)           (* recognition.onerror, event.error *)
| Ended                             (* recognition.onend *)
| Fired (i : nat).                  (* the pending callback number [i] *)

(** The globals and the callbacks handed to [setTimeout] that have not run
    yet. *)
Record Config : Type := {
  globals : State;
  pending : list task
}.

(** The callbacks that the calls [t] hand to [setTimeout]. *)
Fixpoint scheduled (t : list effect) : list task :=
  match t with
  | [] => []
  | SetTimeout _ k :: t' => k :: scheduled t'
  | _ :: t' => scheduled t'
  end.

(** A timer callback with the speech of the host. No callback calls [speak]
    inside a [try], and none assigns a global. *)
Definition callback (w : World) (t : task) : M unit := fun s =>
  let '(tr, s', o) := run_task w t s in
  let (tr', o') := Speech.hosted w (tr, o) in
  (tr', s', o').

Definition handler (w : World) (sg : signal) (pend : list task) : M unit :=
  match sg with
  | Started => onstart w
  | Heard results => onresult w results
  | Failed error => onerror w error
  | Ended => onend w
  | Fired i =>
      match pend !! i with
      | Some t => callback w t
      | None => mret tt
      end
  end.

(** One signal: the calls made and the configuration left. What a handler
    raises ends that handler only; the host reports it and goes on. *)
Definition step (w : World) (sg : signal) (c : Config)
  : list effect * Config :=
  let r := handler w sg (pending c) (globals c) in
  (trace_of r,
   {| globals := state_of r;
      pending :=
        (match sg with
         | Fired i => delete i (pending c)
         | _ => pending c
         end ++ scheduled (trace_of r))%list |}).

(** A sequence of signals, each in the page as it is then. *)
Fixpoint run (signals : list (World * signal)) (c : Config)
  : list effect * Config :=
  match signals with
  | [] => ([], c)
  | (w, sg) :: signals' =>
      let (t, c') := step w sg c in
      let (t', c'') := run signals' c' in
      ((t ++ t')%list, c'')
  end.

(** The call starts the recognition, or schedules the unguarded restart. *)
Definition restarts (e : effect) : bool :=
  match e with
  | RecognitionStart | SetTimeout _ RestartRecognition => true
  | _ => false
  end.

(** A session that was switched off: always-on is unset and the unguarded
    restart is not pending. *)
Definition switched_off (c : Config) : Prop :=
  isAlwaysOn (globals c) = false /\
  Forall (fun k => k <> RestartRecognition) (pending c).

End Machine.

(** ** The core script: local storage, votes, login validation *)

Module Core.
Import JsString Regex.

(** [STORAGE_KEYS] *)
Definition SESSION : string := "voting_session".
Definition FACE_DESCRIPTORS : string := "face_descriptors".
Definition VOTES : string := "votes".
Definition HAS_VOTED_PREFIX : string := "has_voted_".

(** [localStorage]: the stored items, and whether the browser takes a write
    (a [setItem] over quota raises). *)
Record LocalStorage : Type := {
  items : gmap string string;
  accepts : gmap string string -> string -> string -> bool
}.

(** [localStorage.getItem(key)]; [None] is [null]. *)
Definition getItem (ls : LocalStorage) (key : string) : option string :=
  items ls !! key.

(** [localStorage.setItem(key, value)]; [None] when it raises. *)
Definition setItem (ls : LocalStorage) (key value : string)
  : option LocalStorage :=
  if accepts ls (items ls) key value
  then Some {| items := <[key := value]> (items ls); accepts := accepts ls |}
  else None.

(** [localStorage.removeItem(key)] *)
Definition removeItem (ls : LocalStorage) (key : string) : LocalStorage :=
  {| items := delete key (items ls); accepts := accepts ls |}.

Definition getCurrentSession (ls : LocalStorage) : option string :=
  getItem ls SESSION.

Definition setCurrentSession (ls : LocalStorage) (aadhar : string)
  : option LocalStorage :=
  setItem ls SESSION aadhar.

Definition clearSession (ls : LocalStorage) : LocalStorage :=
  removeItem ls SESSION.

Definition isLoggedIn (ls : LocalStorage) : bool :=
  match getCurrentSession ls with Some _ => true | None => false end.

Definition hasUserVoted (ls : LocalStorage) (aadhar : string) : bool :=
  let key := HAS_VOTED_PREFIX +:+ aadhar in
  match getItem ls key with
  | Some v => String.eqb v "true"
  | None => false
  end.

Definition markUserAsVoted (ls : LocalStorage) (aadhar : string)
  : option LocalStorage :=
  let key := HAS_VOTED_PREFIX +:+ aadhar in
  setItem ls key "true".

(** The values [JSON.parse] returns and [JSON.stringify] prints. *)
#[warnings="-register-all"]
Inductive json : Type :=
| JNull
| JBool (b : bool)
| JNumber (n : Z)
| JString (s : string)
| JArray (elements : list json)
| JObject (fields : list (string * json)).

Section Votes.
(** [JSON.parse]; [None] when it raises a SyntaxError. *)
Variable JSON_parse : string -> option json.
(** [JSON.stringify] *)
Variable JSON_stringify : json -> string.

(** [getVotes]: [stored ? JSON.parse(stored) : []]; [None] when it raises. *)
Definition getVotes (ls : LocalStorage) : option json :=
  match getItem ls VOTES with
  | Some (String c s) => JSON_parse (String c s)
  | _ => Some (JArray [])
  end.

(** [voteRecord], with the two readings of the clock. *)
Definition voteRecord (aadhar : string) (candidate : json)
    (timestamp : Z) (date : string) : json :=
  JObject [ ("aadhar", JString aadhar); ("candidate", candidate);
            ("timestamp", JNumber timestamp); ("date", JString date) ].

(** [storeVote]: the value returned and the storage it leaves. Whatever is
    raised inside the [try] is caught and makes it return [false]:
    [JSON.parse] on a malformed text, [votes.push] on a value that is no
    array, [setItem] over quota. *)
Definition storeVote (ls : LocalStorage) (aadhar : string) (candidate : json)
    (timestamp : Z) (date : string) : bool * LocalStorage :=
  match getVotes ls with
  | Some (JArray votes) =>
      let votes' :=
        (votes ++ [voteRecord aadhar candidate timestamp date])%list in
      match setItem ls VOTES (JSON_stringify (JArray votes')) with
      | Some ls1 =>
          match markUserAsVoted ls1 aadhar with
          | Some ls2 => (true, ls2)
          | None => (false, ls1)
          end
      | None => (false, ls)
      end
  | _ => (false, ls)
  end.
End Votes.

(** *** validateLogin *)

Record LoginResult : Type := { valid : bool; message : string }.

(** [/^\d{12}$/] *)
Definition aadharRegex : regex := Bol &> Times 12 Digit &> Eol.

Definition validateLogin (aadhar password : string) : LoginResult :=
  if is_empty aadhar || String.eqb (trim aadhar) "" then
    {| valid := false; message := "Please enter your Aadhar Number." |}
  else if is_empty password || String.eqb (trim password) "" then
    {| valid := false; message := "Please enter your Password." |}
  else if negb (test false aadharRegex (trim aadhar)) then
    {| valid := false; message := "Aadhar Number must be 12 digits." |}
  else
    {| valid := true; message := "Login successful." |}.

End Core.

(** ** The specification's notions, to compare the scripts with *)

Module Spec.
Import JsString Regex Dom Trace Voice.

Definition starts_with_space (s : string) : bool :=
  match s with String c _ => is_space c | EmptyString => false end.

Fixpoint ends_with_space (s : string) : bool :=
  match s with
  | EmptyString => false
  | String c EmptyString => is_space c
  | String _ s' => ends_with_space s'
  end.

(** What [/[^\w\s]/g] leaves in place: word characters and white space. *)
Definition keep (c : ascii) : bool :=
  negb (charset_mem (Neg (Union Word Space)) c).

Definition lower_fixed (c : ascii) : bool := Ascii.eqb (lower_char c) c.

(** A character of a normalized command. *)
Definition normal_char (c : ascii) : bool := keep c && lower_fixed c.

(** Exactly twelve digits. *)
Definition twelve_digits (s : string) : bool :=
  Nat.eqb (String.length s) 12 && forallb is_digit s.

(** Ordinal extraction as the specification words it: the captured integer
    of the first numeric pattern that matches, and the word table only if no
    numeric pattern matches. *)
Definition extractOrdinal_spec (command : string) : option Z :=
  match match_patterns patterns command with
  | Some n => Some n
  | None => scan_words wordNumbers command
  end.

(** A run of digits that a group captured. *)
Definition digit_run (cap : option string) : Prop :=
  exists ds,
    cap = Some ds /\ forallb is_digit ds = true /\ is_empty ds = false.

(** The two shapes of the six patterns. *)
Definition numeric_pattern (r : regex) : Prop :=
  (exists kw, r = (Lit kw &> Star Space &> Group (Plus Digit))) \/
  r = (Boundary &> Group (Plus Digit) &> Boundary).

(** The vote gate as the specification words it. *)
Definition vote_gate (d : Document) (command : string) : bool :=
  includes command "vote" || includes command "select" ||
  includes command "choose" ||
  (isVotingVisible d &&
     (includes command "candidate" || includes command "number")) ||
  some_word command ||
  isVotingVisible d.

(** A trace that is a vote action for candidate [n]: the spoken feedback
    with the delayed click of the control found, or the delayed second
    attempt to find it. *)
Definition is_vote_trace (n : Z) (t : list effect) : bool :=
  match t with
  | [SetTimeout ms (RetryFindVoteButton m)] => (ms =? 200) && (m =? n)
  | [Speak text; SetTimeout ms (ClickWithFallback _)] =>
      String.eqb text (voting_for n) && (ms =? 300)
  | _ => false
  end.

(** An ordered chain of lookups: the first that finds something wins. *)
Fixpoint first_match (chain : list (option Element)) : option Element :=
  match chain with
  | [] => None
  | Some e :: _ => Some e
  | None :: chain' => first_match chain'
  end.



(** The command gets past the verify, confirm and cancel branches of the
    voting handler. *)
Definition reaches_extraction (d : Document) (command : string) : Prop :=
  is_verify_command command = false /\
  is_confirm_command command = false /\
  (is_cancel_command command = true -> findCancelButton d = None).

Definition is_timer (e : effect) : bool :=
  match e with SetTimeout _ _ => true | _ => false end.


Definition is_start (e : effect) : bool :=
  match e with RecognitionStart => true | _ => false end.

(** A trace that schedules no timer and does not start the recognition. *)
Definition quiet (t : list effect) : Prop :=
  existsb is_timer t = false /\ existsb is_start t = false.

End Spec.

(** ** Sample pages and storages *)

Module Examples.
Import JsString Dom Trace Voice Session Core.

Definition element (id : string) : Element :=
  {| el_id := id; el_disabled := false; el_display := "";
     el_candidate_number := None; el_closest_candidate_number := None;
     el_has_onclick := false |}.

Definition hidden (id : string) : Element :=
  {| el_id := id; el_disabled := false; el_display := "none";
     el_candidate_number := None; el_closest_candidate_number := None;
     el_has_onclick := false |}.

(** A page made of the elements [els], which are found by id only. *)
Definition page_of (els : list Element) : Document :=
  {| getElementById :=
       fun i => List.find (fun e => String.eqb (el_id e) i) els;
     querySelector := fun _ => None;
     querySelectorAll := fun _ => [] |}.

Definition world_of (d : Document) (t : effect -> bool) : World :=
  {| document := d; has_redirectTo := true; has_clearSession := true;
     has_showStatusMessage := true; has_SpeechRecognition := true;
     throws := t |}.

Definition never : effect -> bool := fun _ => false.

Definition clicks_throw : effect -> bool :=
  fun e => match e with Click _ => true | _ => false end.

(** The voting page once the identity is verified: the voting section is
    shown, no candidate card is rendered yet, no modal is open. *)
Definition voting_page : World :=
  world_of (page_of [hidden "face-verify-section"; element "voting-section";
                     element "candidates-container"]) never.

(** The voting page before verification: the voting section is hidden. *)
Definition verify_page : World :=
  world_of (page_of [element "btn-verify-face"; element "face-verify-section";
                     hidden "voting-section"]) never.

(** The voting page with the button of candidate 3 rendered. *)
Definition voting_page_3 : World :=
  world_of
    {| getElementById :=
         fun i => if String.eqb i "voting-section"
                  then Some (element "voting-section")
                  else if String.eqb i "vote-btn-3"
                       then Some (element "vote-btn-3") else None;
       querySelector := fun _ => None;
       querySelectorAll := fun _ => [] |} never.

Definition home_page : World :=
  world_of (page_of [element "btn-profile"]) never.

(** A login page whose button raises when clicked. *)
Definition login_page_broken : World :=
  world_of (page_of [element "btn-login"]) clicks_throw.

Definition listening : State :=
  {| recognition := true; isListening := true; isAlwaysOn := true;
     currentPage := "voting" |}.

Definition on_login : State :=
  {| recognition := true; isListening := true; isAlwaysOn := true;
     currentPage := "login" |}.

(** An empty storage with room for everything. *)
Definition empty_storage : LocalStorage :=
  {| items := ∅; accepts := fun _ _ _ => true |}.

Definition sample_candidate : json :=
  JObject [("name", JString "A"); ("party", JString "P")].

(** A stand-in for the printer of the engine, on arrays of votes. *)
Definition count_printer (j : json) : string :=
  match j with
  | JArray l => "[" +:+ of_Z (Z.of_nat (List.length l)) +:+ " votes]"
  | _ => "null"
  end.

Definition no_parser : string -> option json := fun _ => None.

End Examples.

(** ** The rest of the core script: navigation and the tally *)

Module CoreRest.
Import JsString Core.

Section Navigation.
(** [new URLSearchParams(params).toString()] *)
Variable URLSearchParams_toString : list (string * string) -> string.

(** [redirectTo]: the address assigned to [window.location.href]. *)
Definition redirectTo (page : string) (params : list (string * string))
  : string :=
  match params with
  | [] => page
  | _ :: _ => page +:+ "?" +:+ URLSearchParams_toString params
  end.

(** [requireAuth]: the value returned, and the address navigated to if
    any. The call [redirectTo(redirectToPage)] leaves [params] to its
    default, the empty object. *)
Definition requireAuth (ls : LocalStorage) (redirectToPage : string)
  : bool * option string :=
  if negb (isLoggedIn ls) then (false, Some (redirectTo redirectToPage []))
  else (true, None).
End Navigation.

(** The result of reading a property. *)
Inductive access : Type :=
| Throws                (* a TypeError: the property of null or undefined *)
| Undefined
| Value (j : json).

(** The own property [key] of an object; of two fields of the same name the
    later one is the property. *)
Fixpoint lookup_field (key : string) (fields : list (string * json))
  : option json :=
  match fields with
  | [] => None
  | (k, v) :: fields' =>
      match lookup_field key fields' with
      | Some v' => Some v'
      | None => if String.eqb k key then Some v else None
      end
  end.

(** [x.key], for a [key] that no built-in prototype defines (the script
    reads [candidate] and [name] only). *)
Definition get_member (x : access) (key : string) : access :=
  match x with
  | Throws | Undefined | Value JNull => Throws
  | Value (JObject fields) =>
      match lookup_field key fields with
      | Some v => Value v
      | None => Undefined
      end
  | Value _ => Undefined
  end.

(** [x === candidateName], for a string [candidateName]; [None] when reading
    [x] raised. *)
Definition strict_equal_string (x : access) (candidateName : string)
  : option bool :=
  match x with
  | Throws => None
  | Value (JString s) => Some (String.eqb s candidateName)
  | _ => Some false
  end.

(** The callback [vote => vote.candidate.name === candidateName]. *)
Definition votes_for (candidateName : string) (vote : json) : option bool :=
  strict_equal_string
    (get_member (get_member (Value vote) "candidate") "name") candidateName.

(** [votes.filter(callback).length]; [None] when a call of the callback
    raises. *)
Fixpoint count_votes (candidateName : string) (votes : list json)
  : option nat :=
  match votes with
  | [] => Some O
  | vote :: votes' =>
      match votes_for candidateName vote with
      | None => None
      | Some b =>
          match count_votes candidateName votes' with
          | None => None
          | Some n => Some (if b then S n else n)
          end
      end
  end.

Section Tally.
Variable JSON_parse : string -> option json.

(** [getCandidateVoteCount]; [None] when it raises: [getVotes] raised, the
    stored value is no array, or the callback raised. *)
Definition getCandidateVoteCount (ls : LocalStorage) (candidateName : string)
  : option nat :=
  match getVotes JSON_parse ls with
  | Some (JArray votes) => count_votes candidateName votes
  | _ => None
  end.
End Tally.

End CoreRest.

(** ** Global replacement by a regular expression *)

Module RegexReplace.
Import JsString Regex.

(** The position where the match that starts at [p] ends. *)
Definition match_end (i : bool) (r : regex) (p : pos) : option pos :=
  m i pos r p None (fun q _ => Some q).

(** [s.replace(r, rep)] with the [g] flag, from the position [p] on: after a
    match the search goes on where it ended; after an empty match one
    character is copied. *)
Fixpoint replace_from (fuel : nat) (i : bool) (r : regex) (rep : string)
    (p : pos) : string :=
  match fuel with
  | O => rest p
  | S fuel' =>
      let copy :=
        match rest p with
        | EmptyString => EmptyString
        | String c s => String c (replace_from fuel' i r rep (Pos (Some c) s))
        end in
      match match_end i r p with
      | Some q =>
          if (String.length (rest q) <? String.length (rest p))%nat
          then rep +:+ replace_from fuel' i r rep q
          else rep +:+ copy
      | None => copy
      end
  end.

(** Every step but the last consumes a character: the length of the input
    and one more is fuel enough. *)
Definition replace_all (i : bool) (r : regex) (rep : string) (s : string)
  : string :=
  replace_from (S (String.length s)) i r rep (Pos None s).

End RegexReplace.

(** ** voice.js: reading the page aloud *)

Module Reading.
Import JsString Regex RegexReplace Dom Trace.

(** The two texts of an element. *)
Record Content : Type := {
  innerText : string;       (* e.innerText *)
  textContent : string      (* e.textContent *)
}.

(** [text.replace(/\s+/g, ' ').trim()] *)
Definition cleanText (text : string) : string :=
  trim (replace_all false (Plus Space) " " text).

(** [readPageContent], on a document whose elements have the texts
    [content_of]. *)
Definition readPageContent (d : Document) (content_of : Element -> Content)
  : Eff unit :=
  match
    or_else (querySelector d "main")
      (or_else (querySelector d ".container")
               (querySelector d ".content-center"))
  with
  | None => speak "No content found to read."
  | Some mainContent =>
      let text :=
        if is_empty (innerText (content_of mainContent))
        then textContent (content_of mainContent)
        else innerText (content_of mainContent) in
      if is_empty (cleanText text)
      then speak "No content available to read."
      else speak (cleanText text)
  end.

End Reading.

(** ** More notions to state properties with *)

Module Observe.
Import JsString Regex Dom Trace Voice Session.

(** White space squeezed: every run of white space becomes one space.
    [in_run] tells that the character before was white space. *)
Fixpoint squeeze (in_run : bool) (s : string) : string :=
  match s with
  | EmptyString => EmptyString
  | String c s' =>
      if is_space c
      then if in_run then squeeze true s'
           else String " " (squeeze true s')
      else String c (squeeze false s')
  end.

(** No white space but single plain spaces between other characters. *)
Fixpoint single_spaced (after_space : bool) (s : string) : bool :=
  match s with
  | EmptyString => negb after_space
  | String c s' =>
      if is_space c
      then Ascii.eqb c " " && negb after_space && single_spaced true s'
      else single_spaced false s'
  end.

Definition is_speak (e : effect) : bool :=
  match e with Speak _ => true | _ => false end.


Definition is_navigation (e : effect) : bool :=
  match e with RedirectTo _ | SetLocation _ => true | _ => false end.

Definition is_stop (e : effect) : bool :=
  match e with RecognitionStop => true | _ => false end.


End Observe.

(** ** Further notions, read off the script *)

Module Notions.
Import JsString Regex Dom Trace Voice Session Core CoreRest.

(** The command starts the vote block of the voting handler. *)
Definition starts_vote (d : Document) (command : string) : bool :=
  valid_candidate (extractOrdinal command) &&
  isVoteCommand d command (extractOrdinal command).

(** The tests of the branches after the vote block. *)
Definition is_read_list_command (command : string) : bool :=
  includes command "read candidate" || includes command "candidate list" ||
  includes command "list candidates".

Definition is_back_command (command : string) : bool :=
  includes command "go back" || includes command "back" ||
  includes command "return".

(** No call was made. *)
Definition silent {A} (x : Eff A) : bool :=
  match fst x with [] => true | _ :: _ => false end.


(** The messages of [startListening] and [toggleVoiceAssistance]. *)
Definition unavailable_message : string :=
  "Speech recognition is not available in this browser.".



(** An engine exists or can be made. *)
Definition engine_ready (w : World) (s : State) : bool :=
  recognition s || (has_SpeechRecognition w && negb (throws w NewRecognition)).

(** Every white space character is a plain space, and none follows another;
    [after_space] tells that the character before was white space. *)
Fixpoint spaced (after_space : bool) (s : string) : bool :=
  match s with
  | EmptyString => true
  | String c s' =>
      if is_space c
      then Ascii.eqb c " " && negb after_space && spaced true s'
      else spaced false s'
  end.

Definition visible (c : ascii) : bool := negb (is_space c).

(** Where a greedy run of white space that starts at a position ends. *)
Fixpoint run_end (bef : option ascii) (s : string) : Regex.pos :=
  match s with
  | String c s' => if is_space c then run_end (Some c) s' else Regex.Pos bef s
  | EmptyString => Regex.Pos bef EmptyString
  end.

(** The vote is an object whose [candidate] is neither missing nor null. *)
Definition has_candidate (vote : json) : bool :=
  match vote with
  | JObject fields =>
      match lookup_field "candidate" fields with
      | Some JNull | None => false
      | Some _ => true
      end
  | _ => false
  end.

(** The text [storeVote] writes under the key of the votes. *)
Definition votes_text (JSON_stringify : json -> string) (votes : list json)
    (aadhar : string) (candidate : json) (timestamp : Z) (date : string)
  : string :=
  JSON_stringify
    (JArray (votes ++ [voteRecord aadhar candidate timestamp date])).

End Notions.

(** ** More sample pages and storages *)

Module MoreExamples.
Import JsString Dom Trace Voice Session Core CoreRest Examples.

(** A parser that reads back the texts of [count_printer] for the values
    [known]. *)
Definition table_parser (known : list json) (s : string) : option json :=
  List.find (fun j => String.eqb (count_printer j) s) known.

Definition first_vote : json :=
  voteRecord "123456789012" sample_candidate 1700000000000
    "2023-11-14T22:13:20.000Z".

(** A storage that takes the votes and refuses every other write. *)
Definition votes_only_storage : LocalStorage :=
  {| items := ∅; accepts := fun _ key _ => String.eqb key VOTES |}.

(** A storage in which one user is marked as having voted. *)
Definition voted_storage : LocalStorage :=
  {| items := <[HAS_VOTED_PREFIX +:+ "111111111111" := "true"]> ∅;
     accepts := fun _ _ _ => true |}.

(** A page loaded without the core script: no [redirectTo]. *)
Definition standalone_page : World :=
  {| document := page_of []; has_redirectTo := false;
     has_clearSession := false; has_showStatusMessage := false;
     has_SpeechRecognition := true; throws := never |}.



(** A host whose speech synthesis raises. *)
Definition speech_raises : effect -> bool :=
  fun e => match e with Speak _ => true | _ => false end.

Definition mute_login_page : World :=
  world_of (page_of [element "btn-login"]) speech_raises.

Definition mute_voting_page : World :=
  world_of (document voting_page) speech_raises.

(** A stand-in for the printer of the engine that keeps the voters: the
    Aadhar numbers of the records of an array, each followed by a
    semicolon. *)
Definition voter_of (vote : json) : string :=
  match vote with
  | JObject (("aadhar", JString a) :: _) => a +:+ ";"
  | _ => "?;"
  end.

Definition voters_printer (j : json) : string :=
  match j with
  | JArray l => String.concat "" (List.map voter_of l)
  | _ => "null"
  end.

(** A parser that reads back the texts of [voters_printer] for the values
    [known]. *)
Definition voters_parser (known : list json) (s : string) : option json :=
  List.find (fun j => String.eqb (voters_printer j) s) known.

(** A storage that holds the vote of one voter. *)
Definition one_vote_storage : LocalStorage :=
  {| items := <[VOTES := "123456789012;"]> ∅;
     accepts := fun _ _ _ => true |}.

End MoreExamples.

(** * Properties *)

(** ** Strings *)

Module StringFacts.
Import JsString Spec.

Ltac each_char c :=
  destruct c as [[] [] [] [] [] [] [] []]; vm_compute; try reflexivity;
  try congruence.

Lemma lower_char_idem c : lower_char (lower_char c) = lower_char c.
Proof. each_char c. Qed.

Lemma append_cons c a b : String c a +:+ b = String c (a +:+ b).
Proof. reflexivity. Qed.

Lemma append_nil b : EmptyString +:+ b = b.
Proof. reflexivity. Qed.

Lemma forallb_app p a b : forallb p (a +:+ b) = forallb p a && forallb p b.
Proof.
  induction a as [|c a IH]; [reflexivity|].
  rewrite append_cons. simpl. rewrite IH. apply andb_assoc.
Qed.

Lemma trimStart_split s :
  exists pre, s = pre +:+ trimStart s /\ forallb is_space pre = true.
Proof.
  induction s as [|c s IH]; simpl.
  - exists EmptyString. split; reflexivity.
  - destruct (is_space c) eqn:Hc.
    + destruct IH as [pre [H1 H2]]. exists (String c pre).
      rewrite append_cons. simpl. rewrite Hc, H2.
      split; [f_equal; exact H1 | reflexivity].
    + exists EmptyString. split; reflexivity.
Qed.

Lemma trimEnd_split s :
  exists post, s = trimEnd s +:+ post /\ forallb is_space post = true.
Proof.
  induction s as [|c s IH]; simpl.
  - exists EmptyString. split; reflexivity.
  - destruct IH as [post [H1 H2]].
    destruct (is_space c && is_empty (trimEnd s)) eqn:Hc.
    + apply andb_true_iff in Hc as [Hc He].
      destruct (trimEnd s); [|discriminate]. rewrite append_nil in H1.
      subst s. exists (String c post). rewrite append_nil. simpl.
      rewrite Hc, H2. split; reflexivity.
    + exists post. rewrite append_cons. split; [f_equal; exact H1 | exact H2].
Qed.

Lemma trimStart_no_lead s : starts_with_space (trimStart s) = false.
Proof.
  induction s as [|c s IH]; simpl; [reflexivity|].
  destruct (is_space c) eqn:Hc; [exact IH | simpl; exact Hc].
Qed.

Lemma trimEnd_no_trail s : ends_with_space (trimEnd s) = false.
Proof.
  induction s as [|c s IH]; simpl; [reflexivity|].
  destruct (is_space c && is_empty (trimEnd s)) eqn:Hc; [reflexivity|].
  destruct (trimEnd s) eqn:Ht.
  - simpl in *. rewrite andb_true_r in Hc. exact Hc.
  - exact IH.
Qed.

Lemma trimEnd_keeps_lead s :
  starts_with_space s = false -> starts_with_space (trimEnd s) = false.
Proof.
  destruct s as [|c s]; simpl; [reflexivity|].
  intros Hc. rewrite Hc. simpl. exact Hc.
Qed.

Lemma trimStart_fixed s : starts_with_space s = false -> trimStart s = s.
Proof. destruct s as [|c s]; simpl; [reflexivity|]. intros ->. reflexivity. Qed.

Lemma trimEnd_fixed s : ends_with_space s = false -> trimEnd s = s.
Proof.
  induction s as [|c s IH]; simpl; [reflexivity|].
  destruct s as [|c' s'].
  - simpl. intros ->. reflexivity.
  - intros H. rewrite (IH H). simpl. rewrite andb_false_r. reflexivity.
Qed.

Lemma trim_fixed_iff s :
  trim s = s <-> starts_with_space s = false /\ ends_with_space s = false.
Proof.
  unfold trim. split.
  - intros H. split.
    + rewrite <- H. apply trimEnd_keeps_lead, trimStart_no_lead.
    + rewrite <- H. apply trimEnd_no_trail.
  - intros [H1 H2]. rewrite (trimStart_fixed _ H1). apply trimEnd_fixed, H2.
Qed.

(** What [trim] returns: the input without a run of white space at each end,
    and with no white space left at either end. *)
Lemma trim_spec s :
  exists pre post,
    s = pre +:+ trim s +:+ post /\
    forallb is_space pre = true /\ forallb is_space post = true /\
    starts_with_space (trim s) = false /\ ends_with_space (trim s) = false.
Proof.
  destruct (trimStart_split s) as [pre [H1 H2]].
  destruct (trimEnd_split (trimStart s)) as [post [H3 H4]].
  exists pre, post. unfold trim. repeat split; try assumption.
  - rewrite <- H3. exact H1.
  - apply trimEnd_keeps_lead, trimStart_no_lead.
  - apply trimEnd_no_trail.
Qed.

Lemma forallb_trimStart p s :
  forallb p s = true -> forallb p (trimStart s) = true.
Proof.
  induction s as [|c s IH]; simpl; [reflexivity|].
  intros H. destruct (is_space c); [|exact H].
  apply andb_true_iff in H as [_ H]. auto.
Qed.

Lemma forallb_trimEnd p s :
  forallb p s = true -> forallb p (trimEnd s) = true.
Proof.
  induction s as [|c s IH]; simpl; [reflexivity|].
  intros H. apply andb_true_iff in H as [Hc H].
  destruct (is_space c && is_empty (trimEnd s)); [reflexivity|].
  simpl. rewrite Hc. auto.
Qed.

Lemma forallb_trim p s : forallb p s = true -> forallb p (trim s) = true.
Proof. intros H. apply forallb_trimEnd, forallb_trimStart, H. Qed.

Lemma forallb_filter p r s :
  forallb p s = true -> forallb p (filter r s) = true.
Proof.
  induction s as [|c s IH]; simpl; [reflexivity|].
  intros H. apply andb_true_iff in H as [Hc H].
  destruct (r c); simpl; [rewrite Hc|]; auto.
Qed.

Lemma forallb_filter_self p s : forallb p (filter p s) = true.
Proof.
  induction s as [|c s IH]; simpl; [reflexivity|].
  destruct (p c) eqn:Hc; simpl; [rewrite Hc|]; auto.
Qed.

Lemma filter_fixed p s : forallb p s = true -> filter p s = s.
Proof.
  induction s as [|c s IH]; simpl; [reflexivity|].
  intros H. apply andb_true_iff in H as [Hc H]. rewrite Hc, IH; auto.
Qed.

Lemma filter_ext p r s : (forall c, p c = r c) -> filter p s = filter r s.
Proof.
  intros H. induction s as [|c s IH]; simpl; [reflexivity|].
  rewrite H, IH. reflexivity.
Qed.

Lemma forallb_and p r s :
  forallb (fun c => p c && r c) s = forallb p s && forallb r s.
Proof.
  induction s as [|c s IH]; simpl; [reflexivity|]. rewrite IH.
  destruct (p c), (r c), (forallb p s), (forallb r s); reflexivity.
Qed.

Lemma forallb_lower_fixed_toLowerCase s :
  forallb lower_fixed (toLowerCase s) = true.
Proof.
  unfold toLowerCase.
  induction s as [|c s IH]; simpl; [reflexivity|]. rewrite IH.
  unfold lower_fixed. rewrite lower_char_idem, Ascii.eqb_refl. reflexivity.
Qed.

Lemma toLowerCase_fixed s : forallb lower_fixed s = true -> toLowerCase s = s.
Proof.
  unfold toLowerCase.
  induction s as [|c s IH]; simpl; [reflexivity|].
  intros H. apply andb_true_iff in H as [Hc H].
  apply Ascii.eqb_eq in Hc. rewrite Hc, IH; auto.
Qed.

Lemma is_empty_eqb s : String.eqb s "" = is_empty s.
Proof. destruct s; reflexivity. Qed.

Lemma is_empty_true s : is_empty s = true <-> s = "".
Proof. destruct s; simpl; split; congruence. Qed.

End StringFacts.

(** ** Normalisation of commands *)

Module NormalizeFacts.
Import JsString Regex Voice Spec StringFacts.

Lemma keep_word_or_space c : keep c = is_word c || is_space c.
Proof. unfold keep. simpl. apply negb_involutive. Qed.

Lemma normalizeCommand_chars text :
  forallb normal_char (normalizeCommand text) = true.
Proof.
  unfold normalizeCommand, remove_all, normal_char.
  rewrite forallb_and. apply andb_true_iff. split.
  - apply (forallb_filter_self keep).
  - apply forallb_filter, forallb_trim, forallb_lower_fixed_toLowerCase.
Qed.

Lemma normalizeCommand_normal s :
  forallb normal_char s = true -> normalizeCommand s = trim s.
Proof.
  intros H. unfold normal_char in H. rewrite forallb_and in H.
  apply andb_true_iff in H as [Hk Hl].
  unfold normalizeCommand, remove_all.
  rewrite (toLowerCase_fixed _ Hl).
  apply (filter_fixed keep), forallb_trim, Hk.
Qed.

Lemma normalizeCommand_twice text :
  normalizeCommand (normalizeCommand text) = trim (normalizeCommand text).
Proof. apply normalizeCommand_normal, normalizeCommand_chars. Qed.

(** C7, as amended. The normalized command is the utterance lower-cased,
    then trimmed, then stripped of every character that is neither a word
    character nor white space; it is made of lower-case word characters and
    white space only. Normalizing a normalized command trims it: this is the
    identity exactly when the normalized command neither starts nor ends
    with white space. *)
Theorem normalizeCommand_trims (text : string) :
  let n := normalizeCommand text in
  n = filter (fun c => is_word c || is_space c) (trim (toLowerCase text)) /\
  forallb normal_char n = true /\
  normalizeCommand n = trim n /\
  (normalizeCommand n = n <->
   starts_with_space n = false /\ ends_with_space n = false).
Proof.
  intros n. split; [|split; [|split]].
  - unfold n, normalizeCommand, remove_all. apply filter_ext.
    intros c. apply keep_word_or_space.
  - apply normalizeCommand_chars.
  - apply normalizeCommand_twice.
  - unfold n. rewrite normalizeCommand_twice. apply trim_fixed_iff.
Qed.

Lemma normalizeCommand_trims_witness :
  normalizeCommand (normalizeCommand "Vote for candidate 7!") =
  normalizeCommand "Vote for candidate 7!".
Proof.
  exact (proj2 (proj2 (proj2 (proj2
           (normalizeCommand_trims "Vote for candidate 7!"))))
           (conj eq_refl eq_refl)).
Defined.

(** C7, as stated, fails: a full stop before a space leaves the space at the
    head of the normalized command, and a second normalization removes it. *)
Lemma normalizeCommand_not_idempotent :
  normalizeCommand ". a" = " a" /\ normalizeCommand " a" = "a".
Proof. split; reflexivity. Qed.

End NormalizeFacts.

(** ** Regular expressions *)

Module RegexFacts.
Import JsString Regex.

(** [cs{n}$] at a position: exactly [n] characters are left, all in [cs]. *)
Lemma times_eol n cs : forall bef s,
  m false (option string) (Times n cs &> Eol) (Pos bef s) None
    (fun _ cap => Some cap)
  = if Nat.eqb (String.length s) n && forallb (charset_mem cs) s
    then Some None else None.
Proof.
  induction n as [|n IH]; intros bef s.
  - destruct s; reflexivity.
  - destruct s as [|c s]; [reflexivity|].
    simpl. destruct (charset_mem cs c) eqn:Hc; simpl.
    + specialize (IH (Some c) s). simpl in IH. rewrite IH. reflexivity.
    + rewrite andb_false_r. reflexivity.
Qed.

(** [^] matches at the start of the input only. *)
Lemma bol_after c r s : match_at false (Bol &> r) (Pos (Some c) s) = None.
Proof. reflexivity. Qed.

Lemma search_bol_after r :
  forall s c, search false (Bol &> r) (Some c) s = None.
Proof.
  induction s as [|c' s IH]; intros c; cbn [search]; rewrite bol_after;
    [reflexivity | apply IH].
Qed.

(** [/^cs{n}$/.test(s)] *)
Lemma test_anchored_times n cs s :
  test false (Bol &> Times n cs &> Eol) s
  = Nat.eqb (String.length s) n && forallb (charset_mem cs) s.
Proof.
  unfold test, exec.
  assert (H : match_at false (Bol &> Times n cs &> Eol) (Pos None s)
              = if Nat.eqb (String.length s) n && forallb (charset_mem cs) s
                then Some None else None).
  { unfold match_at. simpl. apply (times_eol n cs None s). }
  destruct s as [|c s]; cbn [search]; rewrite H.
  - destruct (_ && _); reflexivity.
  - destruct (_ && _); [reflexivity|]. rewrite search_bol_after. reflexivity.
Qed.

End RegexFacts.

(** ** Login validation *)

Module LoginFacts.
Import JsString Regex Core Spec StringFacts RegexFacts.

Lemma aadharRegex_test s : test false aadharRegex s = twelve_digits s.
Proof. unfold aadharRegex. rewrite test_anchored_times. reflexivity. Qed.

(** C10. [validateLogin] answers valid exactly when the trimmed aadhar is
    twelve digits and the trimmed password is not empty. Otherwise the
    message is that of the first check that fails, in the order: empty
    aadhar, empty password, twelve-digit format. It is a total function of
    its two arguments. *)
Theorem validateLogin_spec (aadhar password : string) :
  let r := validateLogin aadhar password in
  (valid r = true <->
     (String.length (trim aadhar) = 12%nat /\
      forallb is_digit (trim aadhar) = true) /\
     trim password <> "") /\
  (trim aadhar = "" ->
     r = {| valid := false; message := "Please enter your Aadhar Number." |}) /\
  (trim aadhar <> "" -> trim password = "" ->
     r = {| valid := false; message := "Please enter your Password." |}) /\
  (trim aadhar <> "" -> trim password <> "" ->
   twelve_digits (trim aadhar) = false ->
     r = {| valid := false; message := "Aadhar Number must be 12 digits." |}) /\
  (valid r = true -> message r = "Login successful.").
Proof.
  unfold validateLogin. rewrite !is_empty_eqb.
  rewrite aadharRegex_test.
  assert (Ha : is_empty aadhar || is_empty (trim aadhar)
               = is_empty (trim aadhar)).
  { destruct aadhar; reflexivity. }
  assert (Hp : is_empty password || is_empty (trim password)
               = is_empty (trim password)).
  { destruct password; reflexivity. }
  rewrite Ha, Hp. clear Ha Hp.
  destruct (is_empty (trim aadhar)) eqn:Ea.
  - apply is_empty_true in Ea. rewrite Ea. simpl.
    repeat split; try congruence; try discriminate.
    intros [[H _] _]. discriminate.
  - assert (Na : trim aadhar <> "")
      by (intros E; rewrite E in Ea; discriminate).
    destruct (is_empty (trim password)) eqn:Ep.
    + apply is_empty_true in Ep. simpl.
      repeat split; try congruence; try discriminate.
      intros [_ H]. contradiction.
    + assert (Np : trim password <> "")
        by (intros E; rewrite E in Ep; discriminate).
      destruct (twelve_digits (trim aadhar)) eqn:Et; simpl.
      * unfold twelve_digits in Et. apply andb_true_iff in Et as [E1 E2].
        apply Nat.eqb_eq in E1.
        repeat split; try congruence; try discriminate; auto.
      * repeat split; try congruence; try discriminate.
        intros [[H1 H2] _]. unfold twelve_digits in Et.
        rewrite H2, andb_true_r in Et. apply Nat.eqb_neq in Et.
        contradiction.
Qed.

Lemma validateLogin_spec_witness :
  valid (validateLogin " 123456789012 " "secret") = true.
Proof.
  apply (proj1 (validateLogin_spec " 123456789012 " "secret")).
  split; [split; reflexivity | discriminate].
Defined.

Example validateLogin_order :
  message (validateLogin "  " "") = "Please enter your Aadhar Number." /\
  message (validateLogin "12345" " ") = "Please enter your Password." /\
  message (validateLogin "12345678901x" "pw")
    = "Aadhar Number must be 12 digits." /\
  message (validateLogin "1234567890123" "pw")
    = "Aadhar Number must be 12 digits.".
Proof. repeat split. Qed.

End LoginFacts.

(** ** Local storage and votes *)

Module StorageFacts.
Import JsString Core Examples MoreExamples.

Lemma hasUserVoted_flag ls aadhar :
  hasUserVoted ls aadhar = true <->
  getItem ls (HAS_VOTED_PREFIX +:+ aadhar) = Some "true".
Proof.
  unfold hasUserVoted. destruct (getItem ls _) as [v|].
  - rewrite String.eqb_eq. split; congruence.
  - split; discriminate.
Qed.

Lemma setItem_get ls key value ls' :
  setItem ls key value = Some ls' -> getItem ls' key = Some value.
Proof.
  unfold setItem, getItem. destruct (accepts _ _ _ _); [|discriminate].
  intros [= <-]. simpl. apply lookup_insert_eq.
Qed.

Lemma setItem_get_ne ls key value ls' key' :
  setItem ls key value = Some ls' -> key <> key' ->
  getItem ls' key' = getItem ls key'.
Proof.
  unfold setItem, getItem. destruct (accepts _ _ _ _); [|discriminate].
  intros [= <-] Hne. simpl. apply lookup_insert_ne, Hne.
Qed.

Lemma markUserAsVoted_voted ls aadhar ls' :
  markUserAsVoted ls aadhar = Some ls' -> hasUserVoted ls' aadhar = true.
Proof.
  intros H. apply hasUserVoted_flag. exact (setItem_get _ _ _ _ H).
Qed.

(** The flag of a user is never stored under the key of the votes. *)
Lemma flag_key_not_votes aadhar : HAS_VOTED_PREFIX +:+ aadhar <> VOTES.
Proof. discriminate. Qed.

Section Votes.
Variable JSON_parse : string -> option json.
Variable JSON_stringify : json -> string.

Lemma storeVote_success ls aadhar candidate timestamp date ls' :
  storeVote JSON_parse JSON_stringify ls aadhar candidate timestamp date
    = (true, ls') ->
  exists votes,
    getVotes JSON_parse ls = Some (JArray votes) /\
    getItem ls' VOTES =
      Some (JSON_stringify
              (JArray (votes ++
                         [voteRecord aadhar candidate timestamp date]))) /\
    hasUserVoted ls' aadhar = true.
Proof.
  unfold storeVote.
  destruct (getVotes JSON_parse ls) as [[| | | |votes|]|]; try discriminate.
  destruct (setItem ls VOTES _) as [ls1|] eqn:H1; [|discriminate].
  destruct (markUserAsVoted ls1 aadhar) as [ls2|] eqn:H2; [|discriminate].
  intros [= <-]. exists votes. split; [reflexivity|]. split.
  - unfold markUserAsVoted in H2.
    rewrite (setItem_get_ne _ _ _ _ VOTES H2 (flag_key_not_votes aadhar)).
    exact (setItem_get _ _ _ _ H1).
  - exact (markUserAsVoted_voted _ _ _ H2).
Qed.

(** C9. After [markUserAsVoted(a)] has returned, [hasUserVoted(a)] is
    true; [hasUserVoted(a)] is true exactly when the flag stored for [a]
    is the text [true], so it is false where no flag was ever set; and
    when [storeVote(a, c)] returns true, the text stored under the votes
    key is the print of the former votes followed by the new record, an
    object of the voter, the candidate, the time stamp and the date, and
    [hasUserVoted(a)] is true. *)
Theorem voted_flag_laws (ls : LocalStorage) (aadhar : string) :
  (forall ls', markUserAsVoted ls aadhar = Some ls' ->
               hasUserVoted ls' aadhar = true) /\
  (hasUserVoted ls aadhar = true <->
   getItem ls (HAS_VOTED_PREFIX +:+ aadhar) = Some "true") /\
  (getItem ls (HAS_VOTED_PREFIX +:+ aadhar) = None ->
   hasUserVoted ls aadhar = false) /\
  (forall candidate timestamp date ls',
     storeVote JSON_parse JSON_stringify ls aadhar candidate timestamp date
       = (true, ls') ->
     exists votes,
       getVotes JSON_parse ls = Some (JArray votes) /\
       getItem ls' VOTES =
         Some (JSON_stringify
                 (JArray (votes ++
                            [JObject [ ("aadhar", JString aadhar);
                                       ("candidate", candidate);
                                       ("timestamp", JNumber timestamp);
                                       ("date", JString date) ]]))) /\
       hasUserVoted ls' aadhar = true).
Proof.
  split; [|split; [|split]].
  - apply markUserAsVoted_voted.
  - apply hasUserVoted_flag.
  - intros H. unfold hasUserVoted. rewrite H. reflexivity.
  - intros candidate timestamp date ls'. apply storeVote_success.
Qed.

(** With a printer whose output the parser reads back, [getVotes] after a
    successful [storeVote] returns the former votes followed by the new
    record. *)
Lemma storeVote_getVotes ls aadhar candidate timestamp date ls' votes :
  (forall j, JSON_parse (JSON_stringify j) = Some j) ->
  (forall j, JSON_stringify j <> "") ->
  getVotes JSON_parse ls = Some (JArray votes) ->
  storeVote JSON_parse JSON_stringify ls aadhar candidate timestamp date
    = (true, ls') ->
  getVotes JSON_parse ls' =
    Some (JArray (votes ++ [voteRecord aadhar candidate timestamp date])).
Proof.
  intros Hrt Hne Hv Hs.
  destruct (storeVote_success _ _ _ _ _ _ Hs) as (votes' & Hv' & Hget & _).
  rewrite Hv in Hv'. injection Hv' as <-.
  unfold getVotes. rewrite Hget.
  destruct (JSON_stringify _) eqn:E; [exfalso; exact (Hne _ E)|].
  rewrite <- E. apply Hrt.
Qed.
End Votes.

Lemma voted_flag_laws_witness :
  getItem
    (snd (storeVote (voters_parser [JArray [first_vote]]) voters_printer
            one_vote_storage "210987654321" sample_candidate 1700000000001
            "2023-11-14T22:13:20.001Z")) VOTES
    = Some "123456789012;210987654321;" /\
  hasUserVoted
    (snd (storeVote (voters_parser [JArray [first_vote]]) voters_printer
            one_vote_storage "210987654321" sample_candidate 1700000000001
            "2023-11-14T22:13:20.001Z")) "210987654321" = true.
Proof.
  destruct (proj2 (proj2 (proj2
              (voted_flag_laws (voters_parser [JArray [first_vote]])
                 voters_printer one_vote_storage "210987654321")))
              sample_candidate 1700000000001 "2023-11-14T22:13:20.001Z" _
              eq_refl)
    as (votes & Hv & Hget & Hflag).
  injection Hv as <-. split; [exact Hget | exact Hflag].
Defined.

Example hasUserVoted_fresh : hasUserVoted empty_storage "123456789012" = false.
Proof. reflexivity. Qed.

(** A write that the browser refuses after the votes were written: the vote
    is stored, [storeVote] returns false and the flag is not set. *)
Example storeVote_flag_refused :
  let ls := {| items := ∅;
               accepts := fun _ key _ => String.eqb key VOTES |} in
  let r := storeVote no_parser count_printer ls "123456789012"
             sample_candidate 0 "1970-01-01T00:00:00.000Z" in
  fst r = false /\ getItem (snd r) VOTES = Some "[1 votes]" /\
  hasUserVoted (snd r) "123456789012" = false.
Proof. repeat split. Qed.

End StorageFacts.

(** ** The modal confirm and cancel controls *)

Module ModalFacts.
Import JsString Regex Dom Trace Voice Session Spec Examples.




(** A chain finds nothing exactly when each of its lookups finds nothing. *)
Lemma first_match_None (chain : list (option Element)) :
  first_match chain = None <-> Forall (fun x => x = None) chain.
Proof.
  induction chain as [|[x|] chain IH]; simpl.
  - split; auto.
  - split; [discriminate|]. intros H. inversion H. discriminate.
  - rewrite IH. split; [intros H; constructor; auto|].
    intros H. inversion H; auto.
Qed.




(** With no modal open, "cancel" is answered by the help of the page. *)
Example cancel_falls_through :
  handleVotingCommands voting_page "cancel" = votingHelp voting_page.
Proof. reflexivity. Qed.

End ModalFacts.

(** ** Routing and the retry of the vote control *)

Module RouterFacts.
Import JsString Regex Dom Trace Voice Session Spec Examples.

(** C3. When the verify control, the voting section or the candidates
    container is in the document, the voting handler is applied to the
    normalized utterance whatever the stored page is. When none of them is,
    the stored page selects the handler, and a page that is none of the four
    known ones runs no handler. *)
Theorem router_override (w : World) (currentPage command : string) :
  let d := document w in
  let normalized := normalizeCommand command in
  ((is_some (getElementById d "btn-verify-face") = true \/
    is_some (getElementById d "voting-section") = true \/
    is_some (getElementById d "candidates-container") = true) ->
   handleVoiceCommand w currentPage command
     = handleVotingCommands w normalized) /\
  (getElementById d "btn-verify-face" = None ->
   getElementById d "voting-section" = None ->
   getElementById d "candidates-container" = None ->
   handleVoiceCommand w currentPage command =
     if String.eqb currentPage "login" then handleLoginCommands w normalized
     else if String.eqb currentPage "home"
          then handleHomeCommands w normalized
     else if String.eqb currentPage "voting"
          then handleVotingCommands w normalized
     else if String.eqb currentPage "face-verification"
          then handleFaceVerificationCommands w normalized
     else ([], Ok tt)).
Proof.
  split.
  - intros H. unfold handleVoiceCommand, voting_markers.
    destruct H as [H | [H | H]]; rewrite H; rewrite ?orb_true_r; reflexivity.
  - intros H1 H2 H3. unfold handleVoiceCommand, voting_markers, handleByPage.
    rewrite H1, H2, H3. reflexivity.
Qed.

Lemma router_override_witness :
  handleVoiceCommand voting_page "home" "Seven."
    = handleVotingCommands voting_page "seven".
Proof.
  exact (proj1 (router_override voting_page "home" "Seven.")
           (or_intror (or_introl eq_refl))).
Defined.

Example router_stored_page :
  handleVoiceCommand home_page "home" "Seven." = ([Speak home_help], Ok tt) /\
  handleVoiceCommand home_page "results" "Seven." = ([], Ok tt).
Proof. split; reflexivity. Qed.



Example vote_button_still_absent :
  run_task voting_page (RetryFindVoteButton 3) listening =
    ([Speak
        "Candidate 3 not found. Please check the candidate list or try again."],
     listening, Ok tt).
Proof. reflexivity. Qed.

End RouterFacts.

(** ** What the numeric patterns capture *)

Module CaptureFacts.
Import JsString Regex Voice Spec StringFacts.

Section Results.
Variable i : bool.
Variable R : Type.

(** A success of the matcher is a success of its continuation. *)
Lemma m_lit_result l : forall p cap (k : cont R) x,
  m_lit i R l p cap k = Some x -> exists q c, k q c = Some x.
Proof.
  induction l as [|a l IH]; intros p cap k x; simpl.
  - eauto.
  - destruct (rest p) as [|b s']; [discriminate|].
    destruct (char_eq i a b); [apply IH | discriminate].
Qed.

(** What a greedy run hands to its continuation: the input without a run of
    characters of the class. *)
Lemma m_star_result cs : forall s bef cap (k : cont R) x,
  m_star R cs bef s cap k = Some x ->
  exists q ds, k q cap = Some x /\ s = ds +:+ rest q /\
               forallb (charset_mem cs) ds = true.
Proof.
  induction s as [|c s IH]; intros bef cap k x; simpl.
  - intros H. exists (Pos bef ""), "". auto.
  - destruct (charset_mem cs c) eqn:Hc.
    + destruct (m_star R cs (Some c) s cap k) as [r|] eqn:Hs.
      * intros [= <-]. destruct (IH _ _ _ _ Hs) as (q & ds & Hk & -> & Hd).
        exists q, (String c ds). rewrite append_cons. simpl.
        rewrite Hc, Hd. auto.
      * intros H. exists (Pos bef (String c s)), "". auto.
    + intros H. exists (Pos bef (String c s)), "". auto.
Qed.

Lemma m_plus_result cs p cap (k : cont R) x :
  m_plus R cs p cap k = Some x ->
  exists q ds, k q cap = Some x /\ rest p = ds +:+ rest q /\
               forallb (charset_mem cs) ds = true /\ is_empty ds = false.
Proof.
  unfold m_plus. destruct (rest p) as [|c s]; [discriminate|].
  destruct (charset_mem cs c) eqn:Hc; [|discriminate].
  intros H. destruct (m_star_result _ _ _ _ _ _ H) as (q & ds & Hk & -> & Hd).
  exists q, (String c ds). rewrite append_cons. simpl. rewrite Hc, Hd. auto.
Qed.

Lemma m_times_result cs n : forall p cap (k : cont R) x,
  m_times R n cs p cap k = Some x -> exists q c, k q c = Some x.
Proof.
  induction n as [|n IH]; intros p cap k x; simpl.
  - eauto.
  - destruct (rest p) as [|c s]; [discriminate|].
    destruct (charset_mem cs c); [apply IH | discriminate].
Qed.

Lemma m_result r : forall p cap (k : cont R) x,
  m i R r p cap k = Some x -> exists q c, k q c = Some x.
Proof.
  induction r; intros p cap k x; simpl.
  - apply m_lit_result.
  - intros H.
    destruct (m_star_result _ _ _ _ _ _ H) as (q & ds & Hk & _). eauto.
  - intros H.
    destruct (m_plus_result _ _ _ _ _ H) as (q & ds & Hk & _). eauto.
  - apply m_times_result.
  - intros H. destruct (IHr _ _ _ _ H) as (q & c & Hk). eauto.
  - destruct (xorb _ _); [eauto | discriminate].
  - destruct (before p); [discriminate | eauto].
  - destruct (rest p); [eauto | discriminate].
  - intros H. destruct (IHr1 _ _ _ _ H) as (q & c & Hk).
    apply (IHr2 _ _ _ _ Hk).
Qed.
End Results.

Lemma take_app_length ds s :
  take (String.length (ds +:+ s) - String.length s) (ds +:+ s) = ds.
Proof.
  assert (H : forall a b, String.length (a +:+ b)
                          = (String.length a + String.length b)%nat).
  { induction a as [|c a IH]; intros b; [reflexivity|].
    rewrite append_cons. simpl. rewrite IH. reflexivity. }
  rewrite H.
  replace (String.length ds + String.length s - String.length s)%nat
    with (String.length ds) by lia.
  induction ds as [|c ds IH].
  - destruct s; reflexivity.
  - rewrite append_cons. simpl. f_equal. exact IH.
Qed.

(** The group [(\d+)], followed by something that leaves the capture as it
    is. *)
Lemma group_digits_capture i (tail : regex) p cap x :
  (forall q c y,
     m i (option string) tail q c (fun _ cap => Some cap) = Some y -> y = c) ->
  m i (option string) (Group (Plus Digit) &> tail) p cap
    (fun _ cap => Some cap) = Some x ->
  digit_run x.
Proof.
  intros Htail. simpl. intros H.
  destruct (m_plus_result _ _ _ _ _ _ H) as (q & ds & Hk & Hr & Hd & He).
  apply Htail in Hk. subst x. rewrite Hr, take_app_length.
  exists ds. auto.
Qed.

Lemma boundary_keeps i q c y :
  m i (option string) Boundary q c (fun _ cap => Some cap) = Some y -> y = c.
Proof. simpl. destruct (xorb _ _); congruence. Qed.

Lemma group_digits_end i p cap x :
  m i (option string) (Group (Plus Digit)) p cap (fun _ cap => Some cap)
    = Some x ->
  digit_run x.
Proof.
  simpl. intros H.
  destruct (m_plus_result _ _ _ _ _ _ H) as (q & ds & Hk & Hr & Hd & He).
  injection Hk as <-. rewrite Hr, take_app_length. exists ds. auto.
Qed.

Lemma patterns_numeric : Forall (fun ir => numeric_pattern (snd ir)) patterns.
Proof.
  unfold patterns.
  repeat match goal with
  | |- Forall _ (_ :: _) =>
      constructor; [first [left; eexists; reflexivity | right; reflexivity] |]
  end.
  constructor.
Qed.

Lemma match_at_digit_run i r p x :
  numeric_pattern r -> match_at i r p = Some x -> digit_run x.
Proof.
  intros [[kw ->] | ->]; unfold match_at; intros H.
  - change (m i (option string)
              (Lit kw &> Star Space &> Group (Plus Digit)) p None
              (fun _ cap => Some cap))
      with (m i (option string) (Lit kw) p None
              (fun q c => m i (option string) (Star Space) q c
                 (fun q' c' => m i (option string) (Group (Plus Digit)) q' c'
                    (fun _ cap => Some cap)))) in H.
    destruct (m_result _ _ _ _ _ _ _ H) as (q & c & H1).
    destruct (m_result _ _ _ _ _ _ _ H1) as (q' & c' & H2).
    exact (group_digits_end _ _ _ _ H2).
  - change (m i (option string)
              (Boundary &> Group (Plus Digit) &> Boundary) p None
              (fun _ cap => Some cap))
      with (m i (option string) Boundary p None
              (fun q c =>
                 m i (option string) (Group (Plus Digit) &> Boundary) q c
                   (fun _ cap => Some cap))) in H.
    destruct (m_result _ _ _ _ _ _ _ H) as (q & c & H1).
    apply (group_digits_capture _ _ _ _ _ (boundary_keeps i) H1).
Qed.

Lemma search_digit_run i r : numeric_pattern r ->
  forall s bef x, search i r bef s = Some x -> digit_run x.
Proof.
  intros Hr. induction s as [|c s IH]; intros bef x; cbn [search].
  - destruct (match_at i r _) eqn:E; [|discriminate].
    intros [= <-]. exact (match_at_digit_run _ _ _ _ Hr E).
  - destruct (match_at i r _) eqn:E.
    + intros [= <-]. exact (match_at_digit_run _ _ _ _ Hr E).
    + apply IH.
Qed.

Lemma span_digits ds :
  forallb is_digit ds = true -> span is_digit ds = (ds, "").
Proof.
  induction ds as [|c ds IH]; simpl; [reflexivity|].
  intros H. apply andb_true_iff in H as [Hc H].
  rewrite Hc, (IH H). reflexivity.
Qed.

Lemma digits_value_nonneg ds : forall acc,
  forallb is_digit ds = true -> 0 <= acc -> 0 <= digits_value acc ds.
Proof.
  induction ds as [|c ds IH]; intros acc; simpl; [auto|].
  intros H Ha. apply andb_true_iff in H as [Hc H]. apply IH; [exact H|].
  unfold is_digit, in_range in Hc. apply andb_true_iff in Hc as [H1 H2].
  apply N.leb_le in H1. lia.
Qed.

Lemma digit_not_special c :
  is_digit c = true ->
  is_space c = false /\ c <> "-"%char /\ c <> "+"%char /\
  c <> "x"%char /\ c <> "X"%char.
Proof.
  destruct c as [[] [] [] [] [] [] [] []]; vm_compute; intros H;
    try discriminate H; repeat split; discriminate.
Qed.

Lemma startsWith_two a b c ds :
  (forall c' ds', ds = String c' ds' -> c' <> b) ->
  startsWith (String a (String b "")) (String c ds) = false.
Proof.
  intros H. simpl. destruct ds as [|c' ds']; [apply andb_false_r|].
  destruct (Ascii.eqb_spec b c') as [E|E].
  - exfalso. apply (H c' ds' eq_refl). congruence.
  - simpl. apply andb_false_r.
Qed.

(** [parseInt] of a run of digits is its decimal value. *)
Lemma parseInt_digits ds :
  forallb is_digit ds = true -> is_empty ds = false ->
  parseInt ds = Some (digits_value 0 ds).
Proof.
  destruct ds as [|c ds]; [discriminate|]. intros H _.
  pose proof H as H'. simpl in H'. apply andb_true_iff in H' as [Hc Hd].
  destruct (digit_not_special c Hc) as (Hs & Hm & Hp & Hx & HX).
  unfold parseInt. simpl trimStart. rewrite Hs.
  assert (E : match String c ds with
              | String "-" r => (-1, r)
              | String "+" r => (1, r)
              | _ => (1, String c ds)
              end = (1, String c ds)).
  { destruct c as [[] [] [] [] [] [] [] []]; try reflexivity; congruence. }
  rewrite E.
  assert (E2 : startsWith "0x" (String c ds) || startsWith "0X" (String c ds)
               = false).
  { rewrite !startsWith_two; [reflexivity | |];
      intros c' ds' ->; simpl in Hd; apply andb_true_iff in Hd as [Hc' _];
      apply (digit_not_special c' Hc'). }
  rewrite E2. rewrite (span_digits _ H). simpl is_empty. cbv iota.
  f_equal. destruct (digits_value 0 (String c ds)); reflexivity.
Qed.

(** A numeric pattern that matches always yields a number, never [NaN]. *)
Lemma exec_numeric i r command cap :
  numeric_pattern r -> exec i r command = Some cap ->
  exists n, parseInt_capture cap = Some n /\ 0 <= n.
Proof.
  intros Hr H.
  destruct (search_digit_run i r Hr _ _ _ H) as (ds & -> & Hd & He).
  exists (digits_value 0 ds). simpl. split.
  - apply parseInt_digits; assumption.
  - apply digits_value_nonneg; [assumption | lia].
Qed.

(** No candidate number comes out of the loop over the patterns exactly when
    no pattern matches the command. *)
Lemma match_patterns_None command :
  match_patterns patterns command = None <->
  Forall (fun ir => exec (fst ir) (snd ir) command = None) patterns.
Proof.
  pose proof patterns_numeric as Hn. revert Hn.
  generalize patterns as ps. induction ps as [|[i r] ps IH]; intros Hn; simpl.
  - split; auto.
  - inversion Hn as [|? ? Hr Hn']; subst. simpl in Hr.
    destruct (exec i r command) as [cap|] eqn:E.
    + destruct (exec_numeric _ _ _ _ Hr E) as (n & -> & _).
      split; [discriminate|]. intros H.
      inversion H as [|? ? H1 H2]; subst. simpl in H1. congruence.
    + rewrite (IH Hn'). split.
      * intros H. constructor; [exact E | exact H].
      * intros H. inversion H; assumption.
Qed.

End CaptureFacts.

(** ** The vote gate and the candidate number *)

Module GateFacts.
Import JsString Regex Dom Trace Voice Session Spec Examples.

Lemma valid_candidate_range n : 1 <= n <= 10 -> valid_candidate (Some n) = true.
Proof.
  intros [H1 H2]. unfold valid_candidate, truthy.
  destruct (Z.eqb_spec n 0); [lia|].
  destruct (Z.leb_spec 1 n); [|lia]. destruct (Z.leb_spec n 10); [|lia].
  reflexivity.
Qed.

(** With a candidate number of at least 1, [isVoteCommand] is the gate of
    the specification. *)
Lemma isVoteCommand_gate d command n :
  1 <= n -> isVoteCommand d command (Some n) = vote_gate d command.
Proof.
  intros H. unfold isVoteCommand, vote_gate, truthy.
  destruct (Z.eqb_spec n 0); [lia|]. simpl. rewrite andb_true_r. reflexivity.
Qed.


Lemma votingHelp_not_vote w n : is_vote_trace n (fst (votingHelp w)) = false.
Proof.
  unfold votingHelp.
  destruct (present_and_displayed _); [reflexivity|].
  destruct (present_and_displayed _); reflexivity.
Qed.

Lemma votingAfterVote_not_vote w command n :
  is_vote_trace n (fst (votingAfterVote w command)) = false.
Proof.
  unfold votingAfterVote.
  destruct (_ || _ || _); [reflexivity|].
  destruct (_ || _ || _); [|apply votingHelp_not_vote].
  destruct (has_redirectTo w); reflexivity.
Qed.


Lemma handleVotingCommands_extraction w command :
  reaches_extraction (document w) command ->
  handleVotingCommands w command = votingFromExtraction w command.
Proof.
  intros (Hv & Hc & Hx). unfold handleVotingCommands. rewrite Hv, Hc.
  destruct (is_cancel_command command); [rewrite Hx|]; reflexivity.
Qed.




(** Outside the visible voting section a bare number is no vote. *)
Example bare_number_hidden_section :
  extractOrdinal "7" = Some 7 /\
  vote_gate (document verify_page) "7" = false /\
  handleVotingCommands verify_page "7" = votingHelp verify_page.
Proof. repeat split. Qed.

(** C2. The script at "candidate 0 three": the pattern "candidate N" matches
    and captures 0, which the specification gives as the result; the script
    takes the falsy 0 for no match, scans the word table and ends with 3, so
    that on the voting page a vote for candidate 3 is started. *)
Theorem extractOrdinal_zero_capture :
  match_patterns patterns "candidate 0 three" = Some 0 /\
  extractOrdinal_spec "candidate 0 three" = Some 0 /\
  extractOrdinal "candidate 0 three" = Some 3 /\
  handleVotingCommands voting_page "candidate 0 three" =
    ([SetTimeout 200 (RetryFindVoteButton 3)], Ok tt).
Proof. repeat split. Qed.

(** On a captured 0 the script goes on to the word table, and the
    specification does not. *)
Lemma extractOrdinal_on_zero command :
  match_patterns patterns command = Some 0 ->
  extractOrdinal_spec command = Some 0 /\
  extractOrdinal command =
    match scan_words wordNumbers command with
    | Some num => Some num
    | None => Some 0
    end.
Proof.
  intros H. unfold extractOrdinal, extractOrdinal_spec.
  rewrite H. split; reflexivity.
Qed.

(** Apart from a captured 0, the script extracts what the specification
    says. *)
Lemma extractOrdinal_agrees command :
  match_patterns patterns command <> Some 0 ->
  extractOrdinal command = extractOrdinal_spec command.
Proof.
  intros H. unfold extractOrdinal, extractOrdinal_spec, truthy.
  destruct (match_patterns patterns command) as [z|].
  - destruct (Z.eqb_spec z 0); [congruence | reflexivity].
  - destruct (scan_words _ _); reflexivity.
Qed.

Example extractOrdinal_examples :
  extractOrdinal "vote for candidate 7" = Some 7 /\
  extractOrdinal "choose three" = Some 3 /\
  extractOrdinal "hello" = None /\
  extractOrdinal "three then one" = Some 1 /\
  extractOrdinal "vote 2 candidate 5" = Some 5.
Proof. repeat split. Qed.

End GateFacts.

(** ** The listening session *)

Module SessionFacts.
Import JsString Regex Dom Trace Voice Session Machine Spec Examples.
Import Observe MoreExamples.


(** The status update writes to the status surface only. *)
Lemma updateVoiceStatus_run w s :
  exists t, updateVoiceStatus w s = (t, s, Ok tt) /\ quiet t.
Proof.
  unfold updateVoiceStatus.
  destruct (getElementById _ "voice-status-text"),
           (getElementById _ "voice-indicator"),
           (getElementById _ "btn-voice-toggle");
    eexists; (split; [reflexivity | split; reflexivity]).
Qed.



(** With always-on off, the end of recognition schedules no restart. *)
Lemma onend_off w s : isAlwaysOn s = false -> quiet (trace_of (onend w s)).
Proof.
  intros Ha. unfold onend, mbind, m_bind, modify.
  destruct (updateVoiceStatus_run w (set_isListening false s))
    as (t & -> & Hq).
  unfold get. cbn. rewrite Ha. unfold mret, m_ret, trace_of. cbn.
  rewrite app_nil_r. exact Hq.
Qed.

(** *** Speech that raises ends a handler early *)

Lemma until_speech_raises_prefix w t :
  exists rest, t = (fst (Speech.until_speech_raises w t) ++ rest)%list.
Proof.
  induction t as [|e t [rest IH]]; [exists []; reflexivity|].
  simpl.
  assert (H : exists rest',
    e :: t = (fst (let (r, b) := Speech.until_speech_raises w t in (e :: r, b))
              ++ rest')%list).
  { destruct (Speech.until_speech_raises w t) as [r b]. simpl in *.
    exists rest. rewrite IH at 1. reflexivity. }
  destruct e; try exact H.
  destruct (throws w (Speak text)); [|exact H].
  exists t. reflexivity.
Qed.

Lemma hosted_fst {A} w (x : Eff A) :
  fst (Speech.hosted w x) = fst (Speech.until_speech_raises w (fst x)).
Proof.
  unfold Speech.hosted. destruct (Speech.until_speech_raises w (fst x)).
  reflexivity.
Qed.

Lemma hosted_calm {A} w (x : Eff A) p :
  existsb p (fst x) = false -> existsb p (fst (Speech.hosted w x)) = false.
Proof.
  rewrite hosted_fst.
  destruct (until_speech_raises_prefix w (fst x)) as [rest E].
  intros H. rewrite E, existsb_app in H. apply orb_false_iff in H. apply H.
Qed.

Lemma until_speech_raises_flag w t :
  snd (Speech.until_speech_raises w t) =
    existsb (fun e => is_speak e && throws w e) t.
Proof.
  induction t as [|e t IH]; [reflexivity|]. simpl.
  assert (H : snd (let (r, b) := Speech.until_speech_raises w t in (e :: r, b))
              = existsb (fun e => is_speak e && throws w e) t).
  { destruct (Speech.until_speech_raises w t). exact IH. }
  destruct e; try exact H. simpl.
  destruct (throws w (Speak text)); [reflexivity | exact H].
Qed.

(** Under the speech of the host a handler raises exactly when one of its
    [speak] calls raises or it raises at another call. *)
Lemma hosted_raised {A} w (x : Eff A) :
  raised (Speech.hosted w x) =
    existsb (fun e => is_speak e && throws w e) (fst x) || raised x.
Proof.
  rewrite <- until_speech_raises_flag. unfold raised, Speech.hosted.
  destruct (Speech.until_speech_raises w (fst x)) as [r []]; reflexivity.
Qed.

Lemma hosted_silent_speech {A} w (x : Eff A) :
  (forall text, throws w (Speak text) = false) -> Speech.hosted w x = x.
Proof.
  intros H. unfold Speech.hosted. destruct x as [t o]. simpl.
  assert (E : Speech.until_speech_raises w t = (t, false)).
  { induction t as [|e t IH]; [reflexivity|]. simpl. rewrite IH.
    destruct e; try reflexivity. rewrite H. reflexivity. }
  rewrite E. reflexivity.
Qed.


(** *** What restarts the recognition *)

Ltac calm_branches :=
  repeat match goal with
  | |- context [if ?b then _ else _] =>
      match type of b with bool => destruct b end
  | |- context [match ?x with Some _ => _ | None => _ end] => destruct x
  end;
  reflexivity.

Lemma restarts_quiet t : quiet t -> existsb restarts t = false.
Proof.
  intros [Ht Hs]. induction t as [|e t IH]; [reflexivity|].
  simpl in *. apply orb_false_iff in Ht as [Ht1 Ht2].
  apply orb_false_iff in Hs as [Hs1 Hs2]. rewrite (IH Ht2 Hs2), orb_false_r.
  destruct e; try reflexivity; discriminate.
Qed.

Lemma restarts_start t : existsb restarts t = false -> existsb is_start t = false.
Proof.
  induction t as [|e t IH]; [reflexivity|]. simpl. intros H.
  apply orb_false_iff in H as [H1 H2]. rewrite (IH H2), orb_false_r.
  destruct e; try reflexivity; discriminate.
Qed.

Lemma restarts_scheduled t :
  existsb restarts t = false ->
  Forall (fun k => k <> RestartRecognition) (scheduled t).
Proof.
  induction t as [|e t IH]; [constructor|]. simpl. intros H.
  apply orb_false_iff in H as [H1 H2]. specialize (IH H2).
  destruct e; try exact IH.
  constructor; [|exact IH]. intros ->. discriminate.
Qed.

(** No command handler starts the recognition or schedules its restart. *)
Lemma handleVotingCommands_calm w command :
  existsb restarts (fst (handleVotingCommands w command)) = false.
Proof.
  unfold handleVotingCommands, verifyBranch, confirmBranch,
    votingFromExtraction, voteForCandidate, votingAfterVote, votingHelp,
    call, speak, emit, skip, setTimeout.
  calm_branches.
Qed.

Lemma handleVoiceCommand_calm w page command :
  existsb restarts (fst (Voice.handleVoiceCommand w page command)) = false.
Proof.
  unfold Voice.handleVoiceCommand.
  destruct (voting_markers (document w)); [apply handleVotingCommands_calm|].
  unfold handleByPage.
  destruct (String.eqb page "login").
  { unfold handleLoginCommands, call, speak, emit, skip. calm_branches. }
  destruct (String.eqb page "home").
  { unfold handleHomeCommands, handleLogoutCommand, call, speak, emit, skip.
    calm_branches. }
  destruct (String.eqb page "voting"); [apply handleVotingCommands_calm|].
  destruct (String.eqb page "face-verification").
  { unfold handleFaceVerificationCommands, call, speak, emit, skip. calm_branches. }
  destruct (_ || _); [apply handleVotingCommands_calm | reflexivity].
Qed.

Lemma onresult_calm w results s :
  state_of (onresult w results s) = s /\
  existsb restarts (trace_of (onresult w results s)) = false.
Proof.
  split; [reflexivity|].
  unfold onresult, mbind, m_bind, get, lift, trace_of. cbn.
  set (h := Speech.handleVoiceCommand _ _ _).
  assert (Hh : existsb restarts (fst h) = false)
    by apply hosted_calm, handleVoiceCommand_calm.
  unfold try_catch, Speech.speak, call.
  destruct h as [t [[]|]]; cbn in *; rewrite ?existsb_app, ?Hh; reflexivity.
Qed.

(** [setAlwaysOnMode(false)] in full. *)
Lemma setAlwaysOnMode_off_run w s :
  let r := setAlwaysOnMode w false s in
  outcome_of r = Ok tt /\
  isAlwaysOn (state_of r) = false /\
  isListening (state_of r) =
    isListening s && negb (recognition s && negb (throws w RecognitionStop)) /\
  existsb is_stop (trace_of r) = recognition s && isListening s /\
  quiet (trace_of r).
Proof.
  destruct s as [rec lis on page].
  unfold setAlwaysOnMode, stopListening, updateVoiceStatus, try_catchM, lift,
    call, emit, get, modify, mbind, m_bind, mret, m_ret, when_present,
    trace_of, state_of, outcome_of, quiet.
  cbn.
  destruct (getElementById _ "voice-status-text"),
    (getElementById _ "voice-indicator"),
    (getElementById _ "btn-voice-toggle"), rec, lis; cbn;
    try (repeat split; reflexivity);
    destruct (throws w RecognitionStop); cbn; repeat split; reflexivity.
Qed.

Lemma onerror_unfold w error s :
  onerror w error s =
    if isAlwaysOn s &&
       (String.eqb error "no-speech" || String.eqb error "aborted")
    then ([SetTimeout 500 RestartIfAlwaysOn], s, Ok tt)
    else if String.eqb error "not-allowed" then
      if throws w (Speak
           "Microphone access denied. Please enable microphone permissions.")
      then ([Speak
           "Microphone access denied. Please enable microphone permissions."],
            s, Raised)
      else
        let '(t, s', o) := setAlwaysOnMode w false s in
        (Speak
           "Microphone access denied. Please enable microphone permissions."
         :: t, s', o)
    else ([], s, Ok tt).
Proof.
  unfold onerror, mbind, m_bind, get, lift, Speech.speak, call, setTimeout,
    emit.
  cbn -[setAlwaysOnMode].
  destruct (isAlwaysOn s && _); [reflexivity|].
  destruct (String.eqb error "not-allowed"); [|reflexivity].
  cbn -[setAlwaysOnMode].
  destruct (throws w (Speak _)); [reflexivity|].
  destruct (setAlwaysOnMode w false s) as [[t s'] o]. reflexivity.
Qed.

Lemma onerror_off w error s :
  isAlwaysOn s = false ->
  isAlwaysOn (state_of (onerror w error s)) = false /\
  existsb restarts (trace_of (onerror w error s)) = false.
Proof.
  intros Ha. rewrite onerror_unfold, Ha. cbn [andb].
  destruct (String.eqb error "not-allowed"); [|split; [exact Ha | reflexivity]].
  destruct (throws w (Speak _)); [split; [exact Ha | reflexivity]|].
  destruct (setAlwaysOnMode_off_run w s) as (Ho & Hoff & _ & _ & Hq).
  destruct (setAlwaysOnMode w false s) as [[t s'] o].
  unfold state_of, trace_of, outcome_of in *. cbn in *.
  split; [exact Hoff|]. apply restarts_quiet, Hq.
Qed.

Lemma onend_calm w s :
  isAlwaysOn s = false ->
  isAlwaysOn (state_of (onend w s)) = false /\
  existsb restarts (trace_of (onend w s)) = false.
Proof.
  intros Ha. split; [|apply restarts_quiet, onend_off, Ha].
  unfold onend, mbind, m_bind, modify, get, mret, m_ret, lift, setTimeout,
    emit.
  destruct (updateVoiceStatus_run w (set_isListening false s)) as (t & -> & _).
  cbn. rewrite Ha. cbn. exact Ha.
Qed.

Lemma onstart_calm w s :
  isAlwaysOn (state_of (onstart w s)) = isAlwaysOn s /\
  existsb restarts (trace_of (onstart w s)) = false.
Proof.
  unfold onstart, mbind, m_bind, modify.
  destruct (updateVoiceStatus_run w (set_isListening true s)) as (t & -> & Hq).
  cbn. split; [reflexivity|]. rewrite ?app_nil_r. cbn.
  apply restarts_quiet, Hq.
Qed.

Lemma run_task_state w t s : state_of (run_task w t s) = s.
Proof.
  destruct t; unfold run_task, try_catchM, lift, call, mbind, m_bind, get;
    cbn; calm_branches.
Qed.

Lemma run_task_calm w t s :
  isAlwaysOn s = false -> t <> RestartRecognition ->
  existsb restarts (trace_of (run_task w t s)) = false.
Proof.
  intros Ha Ht. destruct t; try contradiction;
    unfold run_task, retryFindVoteButton, try_catchM, lift, call, speak,
      setTimeout, emit, mbind, m_bind, get; cbn; rewrite ?Ha; cbn; calm_branches.
Qed.

Lemma callback_calm w t s :
  isAlwaysOn s = false -> t <> RestartRecognition ->
  state_of (callback w t s) = s /\
  existsb restarts (trace_of (callback w t s)) = false.
Proof.
  intros Ha Ht. unfold callback.
  pose proof (run_task_state w t s) as Hs.
  pose proof (run_task_calm w t s Ha Ht) as Hc.
  destruct (run_task w t s) as [[tr s'] o].
  unfold state_of, trace_of in *. cbn in Hs, Hc.
  pose proof (hosted_calm w (tr, o) restarts Hc) as Hh.
  destruct (Speech.hosted w (tr, o)) as [tr' o']. cbn in *. auto.
Qed.

Lemma step_off w sg c :
  switched_off c ->
  existsb restarts (fst (step w sg c)) = false /\ switched_off (snd (step w sg c)).
Proof.
  intros [Ha Hp].
  assert (H : isAlwaysOn (state_of (handler w sg (pending c) (globals c)))
              = false /\
              existsb restarts
                (trace_of (handler w sg (pending c) (globals c))) = false).
  { destruct sg as [ |results|error| |i]; cbn [handler].
    - destruct (onstart_calm w (globals c)) as [H1 H2]. rewrite H1. auto.
    - destruct (onresult_calm w results (globals c)) as [H1 H2].
      rewrite H1. auto.
    - apply onerror_off, Ha.
    - apply onend_calm, Ha.
    - destruct (pending c !! i) as [t|] eqn:E; [|auto].
      assert (Ht : t <> RestartRecognition).
      { rewrite Forall_lookup in Hp. exact (Hp i t E). }
      destruct (callback_calm w t (globals c) Ha Ht) as [H1 H2].
      rewrite H1. auto. }
  destruct H as [H1 H2]. unfold step. cbn.
  split; [exact H2|]. split; [exact H1|]. cbn.
  apply Forall_app. split; [|apply restarts_scheduled, H2].
  destruct sg; try exact Hp. apply Forall_delete, Hp.
Qed.

Lemma run_off signals : forall c,
  switched_off c ->
  existsb restarts (fst (run signals c)) = false /\ switched_off (snd (run signals c)).
Proof.
  induction signals as [|[w sg] signals IH]; intros c Hc; [split; auto|].
  cbn [run].
  destruct (step_off w sg c Hc) as [H1 H2].
  destruct (step w sg c) as [t c']. cbn in H1, H2.
  destruct (IH c' H2) as [H3 H4].
  destruct (run signals c') as [t' c'']. cbn in *.
  rewrite existsb_app, H1, H3. auto.
Qed.

(** C6. On an error of the engine: with always-on set and the error
    "no-speech" or "aborted", the one thing done is to schedule one restart
    500 ms later, which starts the recognition if always-on is still set
    when it fires. With the error "not-allowed", where speaking does not
    raise: the explanation is spoken first, always-on is unset, [stop] is
    called exactly when an engine is held and the script is listening, and
    [isListening] is cleared unless [stop] raises; no timer is scheduled and
    the recognition is not started. And if the restart that an end of the
    recognition schedules is not pending then, the session stays stopped
    under whatever the host does next without the user: through every
    sequence of engine events and timer callbacks the recognition is never
    started, always-on stays unset and that restart never becomes
    pending. *)
Theorem onerror_transition (w : World) (s : State) (error : string)
    (pend : list task) :
  (isAlwaysOn s = true -> error = "no-speech" \/ error = "aborted" ->
     onerror w error s = ([SetTimeout 500 RestartIfAlwaysOn], s, Ok tt) /\
     (forall w' s', callback w' RestartIfAlwaysOn s' =
        if isAlwaysOn s'
        then ([RecognitionStart], s', Ok tt)
        else ([], s', Ok tt))) /\
  (error = "not-allowed" ->
   throws w (Speak
     "Microphone access denied. Please enable microphone permissions.")
     = false ->
     (exists rest s',
        onerror w error s =
          (Speak
             "Microphone access denied. Please enable microphone permissions."
           :: rest, s', Ok tt) /\
        isAlwaysOn s' = false /\
        quiet rest /\
        existsb is_stop rest = recognition s && isListening s /\
        isListening s' =
          isListening s &&
          negb (recognition s && negb (throws w RecognitionStop))) /\
     (Forall (fun k => k <> RestartRecognition) pend ->
      forall signals,
        let r := run ((w, Failed error) :: signals)
                   {| globals := s; pending := pend |} in
        existsb is_start (fst r) = false /\
        isAlwaysOn (globals (snd r)) = false /\
        Forall (fun k => k <> RestartRecognition) (pending (snd r)))).
Proof.
  split.
  - intros Ha He. split.
    + rewrite onerror_unfold, Ha. destruct He as [-> | ->]; reflexivity.
    + intros w' s'. unfold callback, run_task, mbind, m_bind, get. cbn.
      destruct (isAlwaysOn s'); [|reflexivity].
      unfold try_catchM, lift, call. cbn.
      destruct (throws w' RecognitionStart); reflexivity.
  - intros -> Hspeak.
    assert (Hu : onerror w "not-allowed" s =
              let '(t, s', o) := setAlwaysOnMode w false s in
              (Speak
                 "Microphone access denied. Please enable microphone permissions."
               :: t, s', o)).
    { rewrite onerror_unfold.
      destruct (isAlwaysOn s); cbn -[setAlwaysOnMode]; rewrite Hspeak;
        reflexivity. }
    destruct (setAlwaysOnMode_off_run w s) as (Ho & Hoff & Hl & Hst & Hq).
    destruct (setAlwaysOnMode w false s) as [[t s'] o].
    unfold state_of, trace_of, outcome_of in Ho, Hoff, Hl, Hst, Hq.
    cbn in Ho, Hoff, Hl, Hst, Hq. subst o.
    split.
    + exists t, s'. auto.
    + intros Hp signals. cbv zeta.
      set (c1 := {| globals := s'; pending := (pend ++ scheduled t)%list |}).
      assert (E : run ((w, Failed "not-allowed") :: signals)
                    {| globals := s; pending := pend |} =
                  ((Speak
                      "Microphone access denied. Please enable microphone permissions."
                    :: t ++ fst (run signals c1))%list,
                   snd (run signals c1))).
      { cbn [run]. unfold step. cbn [handler globals pending].
        rewrite Hu. unfold trace_of, state_of. cbn [fst snd scheduled].
        fold c1. destruct (run signals c1); reflexivity. }
      rewrite E. cbn [fst snd].
      assert (Hoff1 : switched_off c1).
      { split; [exact Hoff|]. cbn. apply Forall_app. split; [exact Hp|].
        apply restarts_scheduled, restarts_quiet, Hq. }
      destruct (run_off signals c1 Hoff1) as [H1 [H2 H3]].
      split; [|split; assumption].
      cbn [existsb is_start]. rewrite existsb_app, (restarts_start _ H1).
      destruct Hq as [_ Hq]. rewrite Hq. reflexivity.
Qed.

Lemma onerror_transition_witness :
  existsb is_start
    (fst (run [(voting_page, Failed "not-allowed"); (voting_page, Ended);
               (voting_page, Failed "no-speech"); (voting_page, Fired 0)]
            {| globals := listening; pending := [RestartIfAlwaysOn] |}))
  = false.
Proof.
  refine (proj1 (proj2 (proj2 (onerror_transition voting_page listening
                                 "not-allowed" [RestartIfAlwaysOn])
                          eq_refl eq_refl) _ _)).
  repeat constructor. discriminate.
Defined.

Example onerror_not_allowed :
  onerror voting_page "not-allowed" listening =
    ([Speak "Microphone access denied. Please enable microphone permissions.";
      RecognitionStop],
     {| recognition := true; isListening := false; isAlwaysOn := false;
        currentPage := "voting" |}, Ok tt).
Proof. reflexivity. Qed.

(** A restart that the end of the recognition had scheduled before the
    error still starts the recognition after it; and where the speech
    synthesis raises, always-on stays set. *)
Lemma denied_session_restarts :
  run [(voting_page, Ended); (voting_page, Failed "not-allowed");
       (voting_page, Fired 0)]
      {| globals := listening; pending := [] |} =
    ([SetTimeout 300 RestartRecognition;
      Speak "Microphone access denied. Please enable microphone permissions.";
      RecognitionStart],
     {| globals :=
          {| recognition := true; isListening := false; isAlwaysOn := false;
             currentPage := "voting" |};
        pending := [] |}) /\
  onerror mute_voting_page "not-allowed" listening =
    ([Speak "Microphone access denied. Please enable microphone permissions."],
     listening, Raised).
Proof. split; reflexivity. Qed.

(** C8. The result callback leaves the globals of the session as they
    were, whatever the handler of the utterance does. When the handler
    raises (at a call on the page, or at a [speak]), the calls it made are
    followed by the apology, and the callback ends normally exactly when
    speaking the apology does not raise; when the handler does not raise,
    its calls are all that is done and the callback ends normally. So, where
    speaking the apology does not raise, nothing leaves the callback. *)
Theorem onresult_catches (w : World) (s : State) (results : list string) :
  let transcript := trim (String.concat " " results) in
  let handled := Speech.handleVoiceCommand w (currentPage s) transcript in
  let sorry :=
    "Sorry, there was an error processing your command. Please try again." in
  let r := onresult w results s in
  state_of r = s /\
  raised handled =
    existsb (fun e => is_speak e && throws w e)
      (fst (Voice.handleVoiceCommand w (currentPage s) transcript)) ||
    raised (Voice.handleVoiceCommand w (currentPage s) transcript) /\
  (raised handled = false -> r = (fst handled, s, Ok tt)) /\
  (raised handled = true ->
     trace_of r = (fst handled ++ [Speak sorry])%list /\
     outcome_of r = if throws w (Speak sorry) then Raised else Ok tt) /\
  (throws w (Speak sorry) = false -> outcome_of r = Ok tt).
Proof.
  intros transcript handled sorry r.
  split; [|split; [apply hosted_raised|]].
  - unfold r, onresult, mbind, m_bind, get, lift, state_of. reflexivity.
  - unfold r, onresult, mbind, m_bind, get, lift, try_catch, outcome_of,
      state_of, trace_of, Speech.speak, call.
    cbn. fold transcript. fold handled. fold sorry.
    destruct handled as [t [[]|]]; unfold raised; cbn;
      repeat split; try congruence.
    intros ->. reflexivity.
Qed.

Lemma onresult_catches_witness :
  outcome_of (onresult login_page_broken ["Login."] on_login) = Ok tt.
Proof.
  exact (proj2 (proj2 (proj2 (proj2
           (onresult_catches login_page_broken on_login ["Login."]))))
           eq_refl).
Defined.

Example onresult_apology :
  onresult login_page_broken ["Login."] on_login =
    ([Speak "Logging in..."; Click (element "btn-login");
      Speak "Sorry, there was an error processing your command. Please try again."],
     on_login, Ok tt).
Proof. reflexivity. Qed.

(** Where the speech synthesis raises, the apology raises in its turn and
    leaves the callback. *)
Lemma onresult_raises :
  onresult mute_login_page ["Login."] on_login =
    ([Speak "Logging in...";
      Speak "Sorry, there was an error processing your command. Please try again."],
     on_login, Raised).
Proof. reflexivity. Qed.

End SessionFacts.

(** * Further properties *)

(** ** Decimal numerals *)

Module DecimalFacts.
Import JsString StringFacts CaptureFacts.

Lemma digits_of_uint d :
  forallb is_digit (NilEmpty.string_of_uint d) = true.
Proof. induction d; simpl; auto. Qed.

Lemma digits_value_of_uint d : forall d',
  digits_value (Z.of_N (DecimalPos.Unsigned.of_lu d')) (NilEmpty.string_of_uint d)
  = Z.of_N (DecimalPos.Unsigned.of_lu (Decimal.revapp d d')).
Proof.
  induction d; intros d'; simpl; [reflexivity|..];
    rewrite <- IHd; f_equal; cbn [DecimalPos.Unsigned.of_lu]; change (Z.of_N (code _)) with 48; lia.
Qed.

(** The decimal text of a positive number, read as digits. *)
Lemma digits_value_to_uint p :
  digits_value 0 (NilEmpty.string_of_uint (Pos.to_uint p)) = Zpos p.
Proof.
  change 0 with (Z.of_N (DecimalPos.Unsigned.of_lu Decimal.Nil)).
  rewrite (digits_value_of_uint (Pos.to_uint p) Decimal.Nil).
  change (Decimal.revapp (Pos.to_uint p) Decimal.Nil)
    with (Decimal.rev (Pos.to_uint p)).
  rewrite <- DecimalPos.Unsigned.of_uint_alt, DecimalPos.Unsigned.of_to.
  reflexivity.
Qed.

Lemma string_of_uint_nonempty d :
  d <> Decimal.Nil -> is_empty (NilEmpty.string_of_uint d) = false.
Proof. destruct d; simpl; congruence. Qed.

Lemma nilzero_to_uint p :
  NilZero.string_of_uint (Pos.to_uint p)
  = NilEmpty.string_of_uint (Pos.to_uint p).
Proof.
  pose proof (DecimalPos.Unsigned.to_uint_nonnil p) as H.
  destruct (Pos.to_uint p); [contradiction | reflexivity ..].
Qed.

(** [parseInt] of a minus sign and a run of digits. *)
Lemma parseInt_minus_digits ds :
  forallb is_digit ds = true -> is_empty ds = false ->
  parseInt (String "-" ds) = Some (- digits_value 0 ds).
Proof.
  intros H He. destruct ds as [|c ds]; [discriminate|].
  unfold parseInt.
  change (trimStart (String "-" (String c ds))) with (String "-" (String c ds)).
  cbv iota beta.
  assert (E2 : startsWith "0x" (String c ds) || startsWith "0X" (String c ds)
               = false).
  { pose proof H as Hd. simpl in Hd. apply andb_true_iff in Hd as [_ Hd].
    rewrite !startsWith_two; [reflexivity | |];
      intros c' ds' ->; simpl in Hd; apply andb_true_iff in Hd as [Hc' _];
      apply (digit_not_special c' Hc'). }
  rewrite E2, (span_digits _ H). simpl is_empty. cbv iota.
  f_equal; lia.
Qed.

(** Reading back the decimal text of a number gives the number. *)
Lemma parseInt_of_Z z : parseInt (of_Z z) = Some z.
Proof.
  unfold of_Z. destruct z as [|p|p]; [reflexivity | |]; simpl Z.to_int;
    unfold NilZero.string_of_int; rewrite nilzero_to_uint.
  - rewrite parseInt_digits, digits_value_to_uint;
      [reflexivity | apply digits_of_uint |].
    apply string_of_uint_nonempty, DecimalPos.Unsigned.to_uint_nonnil.
  - rewrite parseInt_minus_digits, digits_value_to_uint;
      [reflexivity | apply digits_of_uint |].
    apply string_of_uint_nonempty, DecimalPos.Unsigned.to_uint_nonnil.
Qed.

Lemma of_Z_inj a b : of_Z a = of_Z b -> a = b.
Proof.
  intros H. pose proof (parseInt_of_Z a) as Ha. rewrite H, parseInt_of_Z in Ha.
  congruence.
Qed.

Lemma of_Z_nonempty z : is_empty (of_Z z) = false.
Proof.
  destruct (of_Z z) eqn:E; [|reflexivity].
  pose proof (parseInt_of_Z z) as H. rewrite E in H. discriminate.
Qed.

End DecimalFacts.

(** ** The storage of the core script *)

Module StorageMoreFacts.
Import JsString Core CoreRest Examples Notions MoreExamples.

Lemma flag_key_not_session aadhar : HAS_VOTED_PREFIX +:+ aadhar <> SESSION.
Proof. discriminate. Qed.

Lemma flag_key_inj a b :
  HAS_VOTED_PREFIX +:+ a = HAS_VOTED_PREFIX +:+ b -> a = b.
Proof. apply (inj (String.app HAS_VOTED_PREFIX)). Qed.

Lemma setItem_items ls key value ls' :
  setItem ls key value = Some ls' ->
  items ls' = <[key := value]> (items ls) /\ accepts ls' = accepts ls /\
  accepts ls (items ls) key value = true.
Proof.
  unfold setItem. destruct (accepts ls (items ls) key value); [|discriminate].
  intros [= <-]. auto.
Qed.

Lemma setItem_frame ls key value ls' key' :
  setItem ls key value = Some ls' -> key <> key' ->
  getItem ls' key' = getItem ls key'.
Proof.
  intros H Hne. destruct (setItem_items _ _ _ _ H) as (Hi & _).
  unfold getItem. rewrite Hi. apply lookup_insert_ne, Hne.
Qed.

Lemma hasUserVoted_getItem ls ls' b :
  getItem ls' (HAS_VOTED_PREFIX +:+ b) = getItem ls (HAS_VOTED_PREFIX +:+ b) ->
  hasUserVoted ls' b = hasUserVoted ls b.
Proof. unfold hasUserVoted. intros ->. reflexivity. Qed.

Lemma removeItem_frame ls key key' :
  key <> key' -> getItem (removeItem ls key) key' = getItem ls key'.
Proof. intros Hne. unfold getItem, removeItem. simpl. apply lookup_delete_ne, Hne. Qed.

Section Navigation.
Variable URLSearchParams_toString : list (string * string) -> string.

(** X1. The session key is the whole login state. After a successful
    [setCurrentSession] the session reads back the number given, [isLoggedIn]
    holds and [requireAuth] lets the page through without navigating; after
    [clearSession] the session is null, [isLoggedIn] fails and [requireAuth]
    returns false and navigates to exactly the page it was given (no query
    string). Neither changes a has-voted flag or the stored votes. *)
Theorem session_lifecycle (ls : LocalStorage) (aadhar page : string) :
  (forall ls', setCurrentSession ls aadhar = Some ls' ->
     getCurrentSession ls' = Some aadhar /\
     isLoggedIn ls' = true /\
     requireAuth URLSearchParams_toString ls' page = (true, None) /\
     (forall b, hasUserVoted ls' b = hasUserVoted ls b) /\
     getItem ls' VOTES = getItem ls VOTES) /\
  (getCurrentSession (clearSession ls) = None /\
   isLoggedIn (clearSession ls) = false /\
   requireAuth URLSearchParams_toString (clearSession ls) page
     = (false, Some page) /\
   (forall b, hasUserVoted (clearSession ls) b = hasUserVoted ls b) /\
   getItem (clearSession ls) VOTES = getItem ls VOTES).
Proof.
  split.
  - intros ls' H. unfold setCurrentSession in H.
    assert (Hg : getCurrentSession ls' = Some aadhar).
    { unfold getCurrentSession, getItem.
      destruct (setItem_items _ _ _ _ H) as (-> & _). apply lookup_insert_eq. }
    assert (Hl : isLoggedIn ls' = true) by (unfold isLoggedIn; rewrite Hg; reflexivity).
    repeat split; try assumption.
    + unfold requireAuth. rewrite Hl. reflexivity.
    + intros b. apply hasUserVoted_getItem.
      apply (setItem_frame _ _ _ _ _ H). intros E. symmetry in E.
      exact (flag_key_not_session b E).
    + apply (setItem_frame _ _ _ _ _ H). discriminate.
  - assert (Hg : getCurrentSession (clearSession ls) = None).
    { unfold getCurrentSession, clearSession, getItem, removeItem. simpl.
      apply lookup_delete_eq. }
    assert (Hl : isLoggedIn (clearSession ls) = false)
      by (unfold isLoggedIn; rewrite Hg; reflexivity).
    repeat split; try assumption.
    + unfold requireAuth. rewrite Hl. reflexivity.
    + intros b. apply hasUserVoted_getItem. apply removeItem_frame.
      intros E. symmetry in E. exact (flag_key_not_session b E).
    + apply removeItem_frame. discriminate.
Qed.
End Navigation.

Lemma session_lifecycle_witness :
  isLoggedIn
    {| items := <[SESSION := ""]> ∅; accepts := fun _ _ _ => true |} = true.
Proof.
  exact (proj1 (proj2 (proj1 (session_lifecycle (fun _ => "") empty_storage "" "index.html")
                         _ eq_refl))).
Defined.

Lemma markUserAsVoted_other ls ls' aadhar b :
  markUserAsVoted ls aadhar = Some ls' -> b <> aadhar ->
  hasUserVoted ls' b = hasUserVoted ls b.
Proof.
  intros H Hb. apply hasUserVoted_getItem. apply (setItem_frame _ _ _ _ _ H).
  intros E. apply Hb. symmetry. exact (flag_key_inj _ _ E).
Qed.

(** X2. The has-voted flag is per user: a successful [markUserAsVoted] for
    one Aadhar number changes the flag of no other number, and leaves the
    session and the stored votes as they were. *)
Theorem vote_flag_per_user (ls ls' : LocalStorage) (aadhar : string) :
  markUserAsVoted ls aadhar = Some ls' ->
  (forall b, b <> aadhar -> hasUserVoted ls' b = hasUserVoted ls b) /\
  getCurrentSession ls' = getCurrentSession ls /\
  getItem ls' VOTES = getItem ls VOTES.
Proof.
  intros H. repeat split; try unfold markUserAsVoted in H.
  - intros b Hb. exact (markUserAsVoted_other _ _ _ _ H Hb).
  - apply (setItem_frame _ _ _ _ _ H), flag_key_not_session.
  - apply (setItem_frame _ _ _ _ _ H), StorageFacts.flag_key_not_votes.
Qed.

Lemma vote_flag_per_user_witness :
  hasUserVoted
    {| items := <[HAS_VOTED_PREFIX +:+ "111111111111" := "true"]> ∅;
       accepts := fun _ _ _ => true |} "222222222222" = false.
Proof.
  exact (proj1 (vote_flag_per_user empty_storage _ "111111111111" eq_refl)
           "222222222222" ltac:(discriminate)).
Defined.

Section Votes.
Variable JSON_parse : string -> option json.
Variable JSON_stringify : json -> string.

(** What [storeVote] does with the storage, case by case. *)
Lemma storeVote_cases ls aadhar candidate timestamp date :
  let r := storeVote JSON_parse JSON_stringify ls aadhar candidate
             timestamp date in
  (* nothing written *)
  (fst r = false /\ snd r = ls /\
   ((forall votes, getVotes JSON_parse ls <> Some (JArray votes)) \/
    exists votes, getVotes JSON_parse ls = Some (JArray votes) /\
      accepts ls (items ls) VOTES
        (votes_text JSON_stringify votes aadhar candidate timestamp date) = false)) \/
  (exists votes ls1,
     getVotes JSON_parse ls = Some (JArray votes) /\
     setItem ls VOTES (votes_text JSON_stringify votes aadhar candidate timestamp date)
       = Some ls1 /\
     ((* the vote written, the flag refused *)
      (fst r = false /\ snd r = ls1 /\
       accepts ls1 (items ls1) (HAS_VOTED_PREFIX +:+ aadhar) "true" = false) \/
      (* both written *)
      (fst r = true /\ markUserAsVoted ls1 aadhar = Some (snd r)))).
Proof.
  unfold storeVote, votes_text.
  destruct (getVotes JSON_parse ls) as [[| | | |votes|]|] eqn:Hv;
    try (left; simpl; repeat split; left; intros ? ?; discriminate).
  destruct (setItem ls VOTES _) as [ls1|] eqn:H1.
  - right. exists votes, ls1. split; [reflexivity|]. split; [exact H1|].
    destruct (markUserAsVoted ls1 aadhar) as [ls2|] eqn:H2.
    + right. split; reflexivity.
    + left. repeat split. unfold markUserAsVoted, setItem in H2.
      destruct (accepts ls1 _ _ _); [discriminate | reflexivity].
  - left. simpl. repeat split. right. exists votes. split; [reflexivity|].
    unfold setItem in H1. destruct (accepts ls _ _ _); [discriminate | reflexivity].
Qed.

(** X3. [storeVote] returns true exactly when the stored votes parse to an
    array and the storage accepts both writes: the new text of the votes,
    and then, in the storage that holds it, the flag of the voter. *)
Theorem storeVote_succeeds_iff ls aadhar candidate timestamp date :
  fst (storeVote JSON_parse JSON_stringify ls aadhar candidate timestamp date)
    = true <->
  exists votes,
    getVotes JSON_parse ls = Some (JArray votes) /\
    let text := votes_text JSON_stringify votes aadhar candidate timestamp date in
    accepts ls (items ls) VOTES text = true /\
    accepts ls (<[VOTES := text]> (items ls))
      (HAS_VOTED_PREFIX +:+ aadhar) "true" = true.
Proof.
  split.
  - intros H.
    destruct (storeVote_cases ls aadhar candidate timestamp date)
      as [(Hf & _) | (votes & ls1 & Hv & H1 & [(Hf & _) | (_ & H2)])];
      try congruence.
    exists votes. split; [exact Hv|]. simpl.
    destruct (setItem_items _ _ _ _ H1) as (Hi & Ha & Hacc).
    split; [exact Hacc|].
    destruct (setItem_items _ _ _ _ H2) as (_ & _ & Hacc2).
    rewrite Hi, Ha in Hacc2. exact Hacc2.
  - intros (votes & Hv & H1 & H2). simpl in H1, H2.
    unfold storeVote. rewrite Hv. fold (votes_text JSON_stringify votes aadhar candidate timestamp date).
    unfold setItem at 1. rewrite H1.
    unfold markUserAsVoted, setItem. simpl. rewrite H2. reflexivity.
Qed.

(** X4. A failed [storeVote] marks nobody as having voted and leaves the
    session alone; but it is not atomic: either nothing was written, or the
    vote was already written under the votes key when the write of the flag
    was refused, so that the vote is counted while its voter may vote
    again. *)
Theorem storeVote_failure ls aadhar candidate timestamp date ls' :
  storeVote JSON_parse JSON_stringify ls aadhar candidate timestamp date
    = (false, ls') ->
  (forall b, hasUserVoted ls' b = hasUserVoted ls b) /\
  getCurrentSession ls' = getCurrentSession ls /\
  (items ls' = items ls \/
   exists votes,
     getVotes JSON_parse ls = Some (JArray votes) /\
     items ls' =
       <[VOTES := votes_text JSON_stringify votes aadhar candidate timestamp date]>
         (items ls)).
Proof.
  intros H.
  destruct (storeVote_cases ls aadhar candidate timestamp date)
    as [(_ & Hs & _) | (votes & ls1 & Hv & H1 & [(_ & Hs & _) | (Hf & _)])];
    rewrite H in *; simpl in *; try discriminate; subst.
  - repeat split. left. reflexivity.
  - repeat split.
    + intros b. apply hasUserVoted_getItem. apply (setItem_frame _ _ _ _ _ H1).
      intros E. symmetry in E. exact (StorageFacts.flag_key_not_votes b E).
    + apply (setItem_frame _ _ _ _ _ H1). discriminate.
    + right. exists votes. split; [exact Hv|].
      apply (setItem_items _ _ _ _ H1).
Qed.

(** X5. Once a user is marked as having voted, no function of the core
    script that writes to the storage unmarks them: not marking another (or
    the same) user, not logging in or out, not storing a vote, whether that
    succeeds or fails. *)
Theorem voted_flag_stays ls aadhar :
  hasUserVoted ls aadhar = true ->
  (forall b ls', markUserAsVoted ls b = Some ls' ->
                 hasUserVoted ls' aadhar = true) /\
  (forall x ls', setCurrentSession ls x = Some ls' ->
                 hasUserVoted ls' aadhar = true) /\
  hasUserVoted (clearSession ls) aadhar = true /\
  (forall b candidate timestamp date,
     hasUserVoted
       (snd (storeVote JSON_parse JSON_stringify ls b candidate timestamp date))
       aadhar = true).
Proof.
  intros Hv.
  assert (Hmark : forall l b l', hasUserVoted l aadhar = true ->
            markUserAsVoted l b = Some l' -> hasUserVoted l' aadhar = true).
  { intros l b l' Hl H. destruct (decide (b = aadhar)) as [->|Hne].
    - exact (StorageFacts.markUserAsVoted_voted _ _ _ H).
    - rewrite (markUserAsVoted_other _ _ _ _ H); auto. }
  assert (Hvotes : forall l text l', hasUserVoted l aadhar = true ->
            setItem l VOTES text = Some l' -> hasUserVoted l' aadhar = true).
  { intros l text l' Hl H. rewrite <- Hl. apply hasUserVoted_getItem.
    apply (setItem_frame _ _ _ _ _ H). intros E. symmetry in E.
    exact (StorageFacts.flag_key_not_votes aadhar E). }
  repeat split.
  - intros b ls'. apply Hmark, Hv.
  - intros x ls' H. rewrite <- Hv. apply hasUserVoted_getItem.
    apply (setItem_frame _ _ _ _ _ H). intros E. symmetry in E.
    exact (flag_key_not_session aadhar E).
  - rewrite <- Hv. apply hasUserVoted_getItem, removeItem_frame.
    intros E. symmetry in E. exact (flag_key_not_session aadhar E).
  - intros b candidate timestamp date.
    destruct (storeVote_cases ls b candidate timestamp date)
      as [(_ & -> & _) | (votes & ls1 & _ & H1 & [(_ & -> & _) | (_ & H2)])].
    + exact Hv.
    + exact (Hvotes _ _ _ Hv H1).
    + exact (Hmark _ _ _ (Hvotes _ _ _ Hv H1) H2).
Qed.
End Votes.

Lemma storeVote_succeeds_iff_witness :
  fst (storeVote no_parser count_printer empty_storage "123456789012"
         sample_candidate 1700000000000 "2023-11-14T22:13:20.000Z") = true.
Proof.
  apply (proj2 (storeVote_succeeds_iff no_parser count_printer empty_storage
                  "123456789012" sample_candidate 1700000000000
                  "2023-11-14T22:13:20.000Z")).
  exists []. repeat split.
Defined.

Lemma storeVote_failure_witness :
  hasUserVoted
    (snd (storeVote no_parser count_printer votes_only_storage
            "123456789012" sample_candidate 1700000000000
            "2023-11-14T22:13:20.000Z")) "123456789012" = false.
Proof.
  exact (proj1 (storeVote_failure no_parser count_printer votes_only_storage
                  "123456789012" sample_candidate 1700000000000
                  "2023-11-14T22:13:20.000Z" _ eq_refl) "123456789012").
Defined.

Lemma voted_flag_stays_witness :
  hasUserVoted (clearSession voted_storage) "111111111111" = true.
Proof.
  exact (proj1 (proj2 (proj2
           (voted_flag_stays no_parser count_printer voted_storage
              "111111111111" eq_refl)))).
Defined.

End StorageMoreFacts.

(** ** The tally *)

Module TallyFacts.
Import JsString Core CoreRest Examples Notions MoreExamples.

Lemma count_votes_app name votes vote :
  count_votes name (votes ++ [vote]) =
    match count_votes name votes, votes_for name vote with
    | Some n, Some b => Some (if b then S n else n)
    | _, _ => None
    end.
Proof.
  induction votes as [|v votes IH]; simpl.
  - destruct (votes_for name vote) as [[]|]; reflexivity.
  - destruct (votes_for name v) as [bv|]; [|reflexivity].
    rewrite IH. destruct (count_votes name votes) as [n|]; [|reflexivity].
    destruct (votes_for name vote) as [b|]; [|reflexivity].
    destruct bv, b; reflexivity.
Qed.

(** The vote of a record is for the candidate it holds. *)
Lemma votes_for_record name aadhar candidate timestamp date :
  votes_for name (voteRecord aadhar candidate timestamp date) =
    strict_equal_string (get_member (Value candidate) "name") name.
Proof. reflexivity. Qed.

Section Tally.
Variable JSON_parse : string -> option json.
Variable JSON_stringify : json -> string.

(** X6. The tally follows the votes. When the stored votes are the array
    [votes], [storeVote] succeeds, and the engine reads back the text it
    wrote (which is not the empty string, that [getVotes] takes for no
    votes), then every candidate's count is the former count, plus one
    exactly when the name of the candidate voted for is that string; and
    where the former count raised, or the new vote has no candidate, the new
    count raises. *)
Theorem tally_after_vote ls ls' aadhar candidate timestamp date votes :
  getVotes JSON_parse ls = Some (JArray votes) ->
  storeVote JSON_parse JSON_stringify ls aadhar candidate timestamp date
    = (true, ls') ->
  let text := JSON_stringify
                (JArray (votes ++ [voteRecord aadhar candidate timestamp date])) in
  text <> "" ->
  JSON_parse text
    = Some (JArray (votes ++ [voteRecord aadhar candidate timestamp date])) ->
  forall name,
    getCandidateVoteCount JSON_parse ls' name =
      match getCandidateVoteCount JSON_parse ls name,
            strict_equal_string (get_member (Value candidate) "name") name
      with
      | Some n, Some b => Some (if b then S n else n)
      | _, _ => None
      end.
Proof.
  intros Hv Hs text Hne Hrt name.
  destruct (StorageFacts.storeVote_success _ _ _ _ _ _ _ _ Hs)
    as (votes' & Hv' & Hget & _).
  rewrite Hv in Hv'. injection Hv' as <-. fold text in Hget.
  unfold getCandidateVoteCount. rewrite Hv.
  unfold getVotes. rewrite Hget.
  destruct text eqn:E; [contradiction|]. rewrite Hrt.
  rewrite count_votes_app, votes_for_record. reflexivity.
Qed.
End Tally.

Lemma tally_after_vote_witness :
  getCandidateVoteCount (table_parser [JArray [first_vote]])
    (snd (storeVote (table_parser [JArray [first_vote]]) count_printer
            empty_storage "123456789012" sample_candidate 1700000000000
            "2023-11-14T22:13:20.000Z")) "A" = Some 1%nat.
Proof.
  exact (tally_after_vote (table_parser [JArray [first_vote]]) count_printer
           empty_storage _ "123456789012" sample_candidate 1700000000000
           "2023-11-14T22:13:20.000Z" [] eq_refl eq_refl
           ltac:(discriminate) eq_refl "A").
Defined.

Lemma votes_for_raises name vote :
  votes_for name vote = None <-> has_candidate vote = false.
Proof.
  unfold votes_for, has_candidate.
  destruct vote as [| | | | |fields]; simpl; try tauto.
  destruct (lookup_field "candidate" fields) as [c|]; simpl; [|tauto].
  destruct c as [| | | | |fs]; simpl; try (split; [discriminate|discriminate]);
    try tauto.
  destruct (lookup_field "name" fs) as [[| | | | |]|]; simpl;
    split; discriminate.
Qed.

(** X7. [getCandidateVoteCount] counts or raises as the stored records
    allow: the count over an array raises exactly when some element is not
    an object with a [candidate] that is neither missing nor null, whatever
    the name asked for; and a count that is returned never exceeds the
    number of stored votes. *)
Theorem tally_raises_iff (name : string) (votes : list json) :
  (count_votes name votes = None <-> List.forallb has_candidate votes = false) /\
  (forall n, count_votes name votes = Some n -> (n <= List.length votes)%nat) /\
  (forall other, count_votes name votes = None <->
                 count_votes other votes = None).
Proof.
  assert (H1 : forall nm, count_votes nm votes = None <->
                          List.forallb has_candidate votes = false).
  { intros nm. induction votes as [|v votes IH]; simpl.
    - split; discriminate.
    - pose proof (votes_for_raises nm v) as Hv.
      destruct (votes_for nm v) as [b|].
      + destruct (has_candidate v); [|exfalso; destruct Hv as [_ Hv];
                                       specialize (Hv eq_refl); discriminate].
        simpl. rewrite <- IH.
        destruct (count_votes nm votes); split; congruence.
      + rewrite (proj1 Hv eq_refl). simpl. tauto. }
  split; [apply H1|]. split.
  - clear H1. induction votes as [|v votes IH]; simpl; intros n.
    + intros [= <-]. lia.
    + destruct (votes_for name v) as [b|]; [|discriminate].
      destruct (count_votes name votes) as [k|]; [|discriminate].
      specialize (IH k eq_refl). intros [= <-]. destruct b; lia.
  - intros other. rewrite (H1 name), (H1 other). tauto.
Qed.
End TallyFacts.

(** ** Votes by voice *)

Module VoteFacts.
Import JsString Regex Dom Trace Voice Session Spec Observe Examples.
Import Notions MoreExamples.
Import StringFacts CaptureFacts GateFacts DecimalFacts.

Lemma append_inj_r a b c : a +:+ b = a +:+ c -> b = c.
Proof. apply (inj (String.app a)). Qed.

Lemma append_inj_l a b c : a +:+ c = b +:+ c -> String.length a = String.length b -> a = b.
Proof.
  revert b. induction a as [|x a IH]; intros [|y b] H Hl; try discriminate.
  - reflexivity.
  - rewrite !append_cons in H. injection H as -> H. f_equal. apply IH; auto.
Qed.

Lemma voting_for_inj a b : voting_for a = voting_for b -> a = b.
Proof.
  unfold voting_for. intros H. apply append_inj_r in H.
  apply of_Z_inj.
  assert (Hlen : forall x y : string, String.length (x +:+ y) = (String.length x + String.length y)%nat).
  { induction x as [|c x IH]; intros y; [reflexivity|].
    rewrite append_cons. simpl. rewrite IH. reflexivity. }
  apply (append_inj_l _ _ "..."); [exact H|].
  apply (f_equal String.length) in H. rewrite !Hlen in H. lia.
Qed.

Lemma valid_candidate_inv n : valid_candidate (Some n) = true -> 1 <= n <= 10.
Proof.
  unfold valid_candidate. intros H.
  apply andb_true_iff in H as [H H2]. apply andb_true_iff in H as [_ H1].
  apply Z.leb_le in H1, H2. lia.
Qed.

Lemma voteForCandidate_vote_inv w m n :
  is_vote_trace n (fst (voteForCandidate w m)) = true -> m = n.
Proof.
  unfold voteForCandidate. destruct (findVoteButton _ _) as [b|].
  - change (fst (speak (voting_for m) ;; setTimeout (ClickWithFallback b) 300))
      with [Speak (voting_for m); SetTimeout 300 (ClickWithFallback b)].
    unfold is_vote_trace. intros H. apply andb_true_iff in H as [H _].
    apply String.eqb_eq in H. exact (voting_for_inj _ _ H).
  - simpl. intros H. apply Z.eqb_eq in H. exact H.
Qed.

Lemma verifyBranch_not_vote w n : is_vote_trace n (fst (verifyBranch w)) = false.
Proof.
  unfold verifyBranch.
  destruct (getElementById _ "btn-verify-face") as [b|]; [|reflexivity].
  destruct (match getElementById _ "face-verify-section" with
            | Some s => displayed s | None => true end && negb (el_disabled b));
    [reflexivity|].
  destruct (el_disabled b); reflexivity.
Qed.

Lemma confirmBranch_not_vote w n : is_vote_trace n (fst (confirmBranch w)) = false.
Proof.
  unfold confirmBranch. destruct (findConfirmButton _); [reflexivity|].
  destruct (isVotingVisible _); reflexivity.
Qed.

Lemma votingFromExtraction_vote_inv w command n :
  is_vote_trace n (fst (votingFromExtraction w command)) = true ->
  extractOrdinal command = Some n /\ 1 <= n <= 10 /\
  vote_gate (document w) command = true.
Proof.
  unfold votingFromExtraction.
  destruct (extractOrdinal command) as [m|] eqn:He;
    [|rewrite votingAfterVote_not_vote; discriminate].
  destruct (valid_candidate (Some m)) eqn:Hvalid; simpl;
    [|rewrite votingAfterVote_not_vote; discriminate].
  destruct (isVoteCommand _ _ _) eqn:Hg;
    [|rewrite votingAfterVote_not_vote; discriminate].
  intros H. apply voteForCandidate_vote_inv in H. subst m.
  pose proof (valid_candidate_inv _ Hvalid) as Hn.
  rewrite isVoteCommand_gate in Hg by lia. auto.
Qed.

(** X8. The voting handler votes for the extracted ordinal only: if its
    calls are those of a vote for candidate [n], then [n] is what the
    extraction gives for the command (a captured number or, as X10 shows, a
    number word found anywhere in it), it lies between 1 and 10, the command
    passes the vote gate, and none of the verify, confirm and cancel
    branches took the command. *)
Theorem vote_only_for_extracted (w : World) (command : string) (n : Z) :
  is_vote_trace n (fst (handleVotingCommands w command)) = true ->
  extractOrdinal command = Some n /\ 1 <= n <= 10 /\
  vote_gate (document w) command = true /\
  reaches_extraction (document w) command.
Proof.
  unfold handleVotingCommands, reaches_extraction.
  destruct (is_verify_command command);
    [rewrite verifyBranch_not_vote; discriminate|].
  destruct (is_confirm_command command);
    [rewrite confirmBranch_not_vote; discriminate|].
  destruct (is_cancel_command command).
  - destruct (findCancelButton _); [simpl; discriminate|].
    intros H. apply votingFromExtraction_vote_inv in H. tauto.
  - intros H. apply votingFromExtraction_vote_inv in H.
    destruct H as (H1 & [H2 H2'] & H3). repeat split; auto. discriminate.
Qed.

Lemma vote_only_for_extracted_witness :
  extractOrdinal "vote for candidate 3" = Some 3 /\ 1 <= 3 <= 10 /\
  vote_gate (document voting_page_3) "vote for candidate 3" = true /\
  reaches_extraction (document voting_page_3) "vote for candidate 3".
Proof.
  exact (vote_only_for_extracted voting_page_3 "vote for candidate 3" 3 eq_refl).
Defined.

(** Words of the table *)
Lemma scan_words_range command n :
  scan_words wordNumbers command = Some n -> 1 <= n <= 10.
Proof.
  unfold wordNumbers. simpl.
  repeat (destruct (includes command _); [intros [= <-]; lia|]).
  discriminate.
Qed.

Lemma scan_words_some_word command :
  some_word command = match scan_words wordNumbers command with
                      | Some _ => true | None => false end.
Proof.
  unfold some_word, wordNumbers. simpl.
  repeat (destruct (includes command _); [reflexivity|]). reflexivity.
Qed.

(** X10. A number word alone votes. When the command reaches the
    extraction, no numeric pattern gives a number (none matches, or the
    number is 0) and the word table finds [n], the handler does exactly what
    a vote for candidate [n] does, on every page and whether or not the
    voting section is shown; the table matches inside longer words, so that
    "listen" votes for candidate 10. *)
Theorem word_number_always_votes (w : World) (command : string) (n : Z) :
  reaches_extraction (document w) command ->
  truthy (match_patterns patterns command) = false ->
  scan_words wordNumbers command = Some n ->
  1 <= n <= 10 /\
  handleVotingCommands w command = voteForCandidate w n.
Proof.
  intros Hr Ht Hs. pose proof (scan_words_range _ _ Hs) as Hn.
  split; [exact Hn|].
  rewrite (handleVotingCommands_extraction _ _ Hr).
  unfold votingFromExtraction, extractOrdinal. rewrite Ht, Hs.
  rewrite (valid_candidate_range n Hn). simpl.
  unfold isVoteCommand. rewrite scan_words_some_word, Hs.
  rewrite !orb_true_r. reflexivity.
Qed.

Lemma word_number_always_votes_witness :
  handleVotingCommands verify_page "listen" = voteForCandidate verify_page 10.
Proof.
  refine (proj2 (word_number_always_votes verify_page "listen" 10 _ eq_refl eq_refl)).
  repeat split.
Defined.

Lemma match_patterns_numeric command n :
  match_patterns patterns command = Some n -> 0 <= n.
Proof.
  pose proof patterns_numeric as Hn. revert Hn.
  generalize patterns as ps. induction ps as [|[i r] ps IH]; intros Hn; simpl.
  - discriminate.
  - inversion Hn as [|? ? Hr Hn']; subst. simpl in Hr.
    destruct (exec i r command) as [cap|] eqn:E; [|apply IH, Hn'].
    destruct (exec_numeric _ _ _ _ Hr E) as (k & -> & Hk). intros [= <-]. exact Hk.
Qed.

Lemma scan_words_None command :
  scan_words wordNumbers command = None <->
  Forall (fun wn => includes command (fst wn) = false) wordNumbers.
Proof.
  generalize wordNumbers as table.
  induction table as [|[word num] table IH]; simpl.
  - split; auto.
  - destruct (includes command word) eqn:E.
    + split; [discriminate|]. intros H.
      inversion H as [|? ? H1 H2]; subst. simpl in H1. congruence.
    + rewrite IH. split.
      * intros H. constructor; [exact E | exact H].
      * intros H. inversion H; assumption.
Qed.

(** X11. The extraction gives no number exactly when none of the six
    patterns matches and no word of the table occurs in the command; and a
    number it gives is never negative. *)
Theorem extractOrdinal_complete (command : string) :
  (extractOrdinal command = None <->
     Forall (fun ir => exec (fst ir) (snd ir) command = None) patterns /\
     Forall (fun wn => includes command (fst wn) = false) wordNumbers) /\
  (forall n, extractOrdinal command = Some n -> 0 <= n).
Proof.
  unfold extractOrdinal. split.
  - rewrite <- match_patterns_None, <- scan_words_None.
    destruct (match_patterns patterns command) as [z|] eqn:Hm.
    + destruct (truthy (Some z)).
      * split; [intros H | intros [H _]]; discriminate H.
      * destruct (scan_words wordNumbers command);
          (split; [intros H | intros [H _]]; discriminate H).
    + cbn [truthy]. destruct (scan_words wordNumbers command).
      * split; [intros H | intros [_ H]]; discriminate H.
      * split; auto.
  - intros n.
    destruct (match_patterns patterns command) as [z|] eqn:Hm.
    + pose proof (match_patterns_numeric _ _ Hm) as Hz.
      destruct (truthy (Some z)); [intros [= <-]; exact Hz|].
      destruct (scan_words wordNumbers command) as [k|] eqn:Hs.
      * intros [= <-]. pose proof (scan_words_range _ _ Hs). lia.
      * intros [= <-]. exact Hz.
    + cbn [truthy]. destruct (scan_words wordNumbers command) as [k|] eqn:Hs;
        [|discriminate].
      intros [= <-]. pose proof (scan_words_range _ _ Hs). lia.
Qed.

Lemma extractOrdinal_complete_witness : 0 <= 12.
Proof.
  exact (proj2 (extractOrdinal_complete "candidate 12") 12 eq_refl).
Defined.

End VoteFacts.

(** ** Unanswered utterances *)

Module SilenceFacts.
Import JsString Regex Dom Trace Voice Session Spec Observe Examples.
Import Notions MoreExamples.

Lemma verifyBranch_answers w : silent (verifyBranch w) = false.
Proof.
  unfold verifyBranch.
  destruct (getElementById _ "btn-verify-face") as [b|]; [|reflexivity].
  destruct (match getElementById _ "face-verify-section" with
            | Some s => displayed s | None => true end && negb (el_disabled b));
    [reflexivity|].
  destruct (el_disabled b); reflexivity.
Qed.

Lemma voteForCandidate_answers w n : silent (voteForCandidate w n) = false.
Proof. unfold voteForCandidate. destruct (findVoteButton _ _); reflexivity. Qed.

Lemma votingHelp_answers w : silent (votingHelp w) = false.
Proof.
  unfold votingHelp.
  destruct (present_and_displayed _); [reflexivity|].
  destruct (present_and_displayed _); reflexivity.
Qed.

Lemma votingAfterVote_silent w command :
  silent (votingAfterVote w command) =
    negb (is_read_list_command command) && is_back_command command &&
    negb (has_redirectTo w).
Proof.
  unfold votingAfterVote, is_read_list_command, is_back_command.
  destruct (_ || _ || _); [reflexivity|].
  destruct (_ || _ || _); [|apply votingHelp_answers].
  destruct (has_redirectTo w); reflexivity.
Qed.

Lemma votingFromExtraction_silent w command :
  silent (votingFromExtraction w command) =
    negb (starts_vote (document w) command) &&
    (negb (is_read_list_command command) && is_back_command command &&
     negb (has_redirectTo w)).
Proof.
  unfold votingFromExtraction, starts_vote.
  destruct (extractOrdinal command) as [n|]; [|apply votingAfterVote_silent].
  destruct (valid_candidate (Some n) && isVoteCommand _ _ _).
  - apply voteForCandidate_answers.
  - apply votingAfterVote_silent.
Qed.

(** X9. When the voting handler leaves an utterance unanswered. It makes
    no call at all (no speech, no click, no timer) in exactly two cases: the
    command asks to confirm while no confirm button is found and the voting
    section is not shown; or the command, which starts neither the confirm
    branch, a found cancel button, the vote block nor the reading of the
    list, asks to go back on a page without [redirectTo]. Everything else,
    the verify branch included, is answered. *)
Theorem voting_silence (w : World) (command : string) :
  let d := document w in
  silent (handleVotingCommands w command) = true <->
  is_verify_command command = false /\
  ((is_confirm_command command = true /\
    findConfirmButton d = None /\ isVotingVisible d = false) \/
   (is_confirm_command command = false /\
    (is_cancel_command command = true -> findCancelButton d = None) /\
    starts_vote d command = false /\
    is_read_list_command command = false /\
    is_back_command command = true /\
    has_redirectTo w = false)).
Proof.
  intros d. unfold handleVotingCommands.
  destruct (is_verify_command command).
  { rewrite verifyBranch_answers. split; [discriminate | intros [H _]; discriminate H]. }
  destruct (is_confirm_command command).
  { unfold confirmBranch. fold d.
    destruct (findConfirmButton d) as [b|].
    - split; [discriminate|]. intros [_ [(_ & H & _) | (H & _)]]; discriminate H.
    - destruct (isVotingVisible d).
      + split; [discriminate|]. intros [_ [(_ & _ & H) | (H & _)]]; discriminate H.
      + split; [auto|]. reflexivity. }
  assert (Htail : silent (votingFromExtraction w command) = true <->
            starts_vote d command = false /\
            is_read_list_command command = false /\
            is_back_command command = true /\ has_redirectTo w = false).
  { rewrite votingFromExtraction_silent. fold d.
    destruct (starts_vote d command), (is_read_list_command command),
      (is_back_command command), (has_redirectTo w); simpl;
      split; try discriminate; try tauto; intros (? & ? & ? & ?); discriminate. }
  destruct (is_cancel_command command).
  - fold d. destruct (findCancelButton d) as [b|].
    + split; [discriminate|].
      intros [_ [(H & _) | (_ & H & _)]]; [discriminate H|].
      specialize (H eq_refl). discriminate H.
    + rewrite Htail. split.
      * intros H. split; [reflexivity|]. right. tauto.
      * intros [_ [(H & _) | (_ & _ & H)]]; [discriminate H | exact H].
  - rewrite Htail. split.
    + intros H. split; [reflexivity|]. right. repeat split; try tauto. discriminate.
    + intros [_ [(H & _) | (_ & _ & H)]]; [discriminate H | exact H].
Qed.

Lemma voting_silence_witness :
  silent (handleVotingCommands standalone_page "go back") = true.
Proof.
  apply (proj2 (voting_silence standalone_page "go back")).
  split; [reflexivity|]. right. repeat split.
Defined.

End SilenceFacts.

(** ** Logging out by voice *)

Module LogoutFacts.
Import JsString Regex Dom Trace Voice Session Spec Observe Examples.
Import Notions MoreExamples.








End LogoutFacts.

(** ** The other page handlers *)

Module HandlerFacts.
Import JsString Regex Dom Trace Voice Session Spec Observe Examples.
Import Notions MoreExamples.

Ltac answered :=
  unfold silent, handleLogoutCommand, call, speak, emit, skip;
  repeat match goal with
  | |- context [if ?b then _ else _] =>
      match type of b with bool => destruct b end
  | |- context [match ?x with Some _ => _ | None => _ end] => destruct x
  end;
  cbn; first [reflexivity | discriminate].

(** X14. When the login, home and face verification handlers leave an
    utterance unanswered (no call at all): on the login page, a login
    command without the login button; on the home page, a command for the
    voting page with neither the link nor [redirectTo], or a profile command
    without the profile button; on the face verification page, a start
    command without the start button or a retry command without the retry
    button. Every other utterance is answered. *)
Theorem page_handlers_silence (w : World) (command : string) :
  (silent (handleLoginCommands w command) = true <->
     includes command "login" || includes command "log in" = true /\
     getElementById (document w) "btn-login" = None) /\
  (silent (handleHomeCommands w command) = true <->
     (includes command "voting page" || includes command "vote now" ||
        includes command "go to voting" = true /\
      querySelector (document w) ("a[href=" +:+ q "voting.html" +:+ "]")
        = None /\
      has_redirectTo w = false) \/
     (includes command "voting page" || includes command "vote now" ||
        includes command "go to voting" = false /\
      includes command "read rules" || includes command "rules" = false /\
      includes command "log out" || includes command "logout" = false /\
      includes command "profile" || includes command "open profile" = true /\
      getElementById (document w) "btn-profile" = None)) /\
  (silent (handleFaceVerificationCommands w command) = true <->
     (includes command "start" || includes command "verify" ||
        includes command "begin" = true /\
      getElementById (document w) "btn-start-verification" = None) \/
     (includes command "start" || includes command "verify" ||
        includes command "begin" = false /\
      includes command "retry" || includes command "try again" = true /\
      getElementById (document w) "btn-retry" = None)).
Proof.
  split; [|split].
  - unfold handleLoginCommands.
    destruct (includes command "login" || includes command "log in").
    + destruct (getElementById _ "btn-login").
      * split; [answered | intros [_ H]; discriminate H].
      * split; auto.
    + assert (H : forall x : Eff unit, silent x = false ->
                silent x = true <-> false = true /\
                getElementById (document w) "btn-login" = None).
      { intros x ->. split; [discriminate | intros [H _]; discriminate H]. }
      apply H. answered.
  - unfold handleHomeCommands.
    destruct (_ || _ || _).
    + destruct (querySelector _ _).
      * split; [answered|].
        intros [(_ & H & _) | (H & _)]; discriminate H.
      * destruct (has_redirectTo w).
        -- split; [answered|].
           intros [(_ & _ & H) | (H & _)]; discriminate H.
        -- split; auto.
    + destruct (includes command "read rules" || includes command "rules").
      { split; [answered|].
        intros [(H & _) | (_ & H & _)]; discriminate H. }
      destruct (includes command "log out" || includes command "logout").
      { split.
        - answered.
        - intros [(H & _) | (_ & _ & H & _)]; discriminate H. }
      destruct (includes command "profile" || includes command "open profile").
      * destruct (getElementById _ "btn-profile").
        -- split; [answered|].
           intros [(H & _) | (_ & _ & _ & _ & H)]; discriminate H.
        -- split; [intros _; right; auto | reflexivity].
      * split.
        -- answered.
        -- intros [(H & _) | (_ & _ & _ & H & _)]; discriminate H.
  - unfold handleFaceVerificationCommands.
    destruct (_ || _ || _).
    + destruct (getElementById _ "btn-start-verification").
      * split; [answered|].
        intros [(_ & H) | (H & _)]; discriminate H.
      * split; auto.
    + destruct (includes command "retry" || includes command "try again").
      * destruct (getElementById _ "btn-retry").
        -- split; [answered|].
           intros [(H & _) | (_ & _ & H)]; discriminate H.
        -- split; [intros _; right; auto | reflexivity].
      * split; [answered|].
        intros [(H & _) | (_ & H & _)]; discriminate H.
Qed.

End HandlerFacts.

(** ** Listening *)

Module ListeningFacts.
Import JsString Regex Dom Trace Voice Session Spec Observe Examples.
Import Notions MoreExamples.
Import SessionFacts.

Ltac run_m :=
  unfold startListening, stopListening, initSpeechRecognition, showVoiceError,
    setAlwaysOnMode, toggleVoiceAssistance, updateVoiceStatus, try_catchM,
    lift, call, speak, emit, get, modify, mbind, m_bind, mret, m_ret,
    when_present, trace_of, state_of, outcome_of, engine_ready,
    unavailable_message;
  cbn.

Ltac cases :=
  repeat match goal with
  | |- context [if ?b then _ else _] => destruct b eqn:?; cbn
  | |- context [match ?x with Some _ => _ | None => _ end] =>
      destruct x eqn:?; cbn
  end.

Lemma startListening_run w s :
  let r := startListening w s in
  outcome_of r =
    (if engine_ready w s
     then Ok (negb (throws w RecognitionStart))
     else if has_showStatusMessage w &&
             throws w (ShowStatusMessage unavailable_message "error")
          then Raised else Ok false) /\
  recognition (state_of r) = engine_ready w s /\
  isListening (state_of r) =
    (engine_ready w s && negb (throws w RecognitionStart)) || isListening s /\
  isAlwaysOn (state_of r) = isAlwaysOn s /\
  currentPage (state_of r) = currentPage s /\
  existsb is_timer (trace_of r) = false /\
  existsb is_start (trace_of r) = engine_ready w s.
Proof.
  destruct s as [rec lis on page]. run_m.
  destruct rec, (has_SpeechRecognition w), (throws w NewRecognition),
    (has_showStatusMessage w),
    (throws w (ShowStatusMessage unavailable_message "error")) eqn:E1,
    (throws w RecognitionStart); unfold unavailable_message in E1;
    cbn; rewrite ?E1; cbn; cases; repeat split; rewrite ?orb_true_r; reflexivity.
Qed.

(** X15. [startListening] returns true exactly when an engine exists or
    can be made and its [start] does not raise; then the script is
    listening, holds an engine and has called [start]. In every other case
    [isListening] is left as it was. It raises only when no engine can be
    had and the error display raises. It never changes the always-on flag
    and sets no timer. *)
Theorem startListening_result (w : World) (s : State) :
  let r := startListening w s in
  (outcome_of r = Ok true <->
     engine_ready w s = true /\ throws w RecognitionStart = false) /\
  (outcome_of r = Ok true ->
     isListening (state_of r) = true /\ recognition (state_of r) = true /\
     existsb is_start (trace_of r) = true) /\
  (outcome_of r <> Ok true -> isListening (state_of r) = isListening s) /\
  (outcome_of r = Raised ->
     engine_ready w s = false /\ has_showStatusMessage w = true) /\
  isAlwaysOn (state_of r) = isAlwaysOn s /\
  existsb is_timer (trace_of r) = false.
Proof.
  intros r.
  destruct (startListening_run w s) as (Ho & Hr & Hl & Ha & _ & Ht & Hs).
  fold r in Ho, Hr, Hl, Ha, Ht, Hs.
  rewrite Ho, Hr, Hl, Ha, Ht, Hs. clear Ho Hr Hl Ha Ht Hs.
  destruct (engine_ready w s), (throws w RecognitionStart),
    (has_showStatusMessage w),
    (throws w (ShowStatusMessage unavailable_message "error")),
    (isListening s); simpl;
    repeat split; intros; try congruence; try tauto;
    match goal with H : _ /\ _ |- _ => destruct H; congruence end.
Qed.

Lemma startListening_result_witness :
  outcome_of (startListening voting_page
                {| recognition := false; isListening := false;
                   isAlwaysOn := true; currentPage := "voting" |}) = Ok true.
Proof.
  apply (proj1 (startListening_result voting_page _)). split; reflexivity.
Defined.

Lemma bind_ok {A B} (x : M A) (f : A -> M B) s t s' a :
  x s = (t, s', Ok a) ->
  (x ≫= f) s = (let '(t', s'', o) := f a s' in ((t ++ t')%list, s'', o)).
Proof. unfold mbind, m_bind. intros ->. reflexivity. Qed.

Lemma bind_raised {A B} (x : M A) (f : A -> M B) s t s' :
  x s = (t, s', Raised) -> (x ≫= f) s = (t, s', Raised).
Proof. unfold mbind, m_bind. intros ->. reflexivity. Qed.






(** X17. In always-on mode the end of recognition clears [isListening],
    updates the status surface and, as its only timer, schedules a restart
    300 ms later. That restart, when it fires, calls [start] whatever the
    state is then (it does not look at the always-on flag again, unlike the
    restart scheduled by [onerror]) and swallows what [start] raises. *)
Theorem onend_restart (w : World) (s : State) :
  isAlwaysOn s = true ->
  (exists t,
     onend w s =
       ((t ++ [SetTimeout 300 RestartRecognition])%list,
        set_isListening false s, Ok tt) /\ quiet t) /\
  (forall w' s',
     run_task w' RestartRecognition s' = ([RecognitionStart], s', Ok tt)).
Proof.
  intros Hon. split.
  - destruct (updateVoiceStatus_run w (set_isListening false s)) as (t & Hu & Hq).
    exists t. split; [|exact Hq].
    unfold onend, mbind, m_bind, modify. rewrite Hu. unfold get.
    cbn. rewrite Hon. cbn. rewrite ?app_nil_r. reflexivity.
  - intros w' s'. unfold run_task, try_catchM, lift, call. cbn.
    destruct (throws w' RecognitionStart); reflexivity.
Qed.

Lemma onend_restart_witness :
  run_task voting_page RestartRecognition
    {| recognition := true; isListening := false; isAlwaysOn := false;
       currentPage := "voting" |}
  = ([RecognitionStart],
     {| recognition := true; isListening := false; isAlwaysOn := false;
        currentPage := "voting" |}, Ok tt).
Proof.
  exact (proj2 (onend_restart voting_page listening eq_refl) voting_page _).
Defined.

End ListeningFacts.

(** ** Stopping *)

Module StopFacts.
Import JsString Regex Dom Trace Voice Session Spec Observe Examples.
Import Notions MoreExamples.

(** X20. [stopListening] never raises. It calls [stop] exactly when an
    engine is held and the script is listening, and clears [isListening]
    exactly when that call does not raise: if [stop] raises the script goes
    on believing that it listens. It changes no other global, sets no timer
    and starts nothing. *)
Theorem stopListening_result (w : World) (s : State) :
  let r := stopListening w s in
  outcome_of r = Ok tt /\
  isListening (state_of r) =
    isListening s && negb (recognition s && negb (throws w RecognitionStop)) /\
  recognition (state_of r) = recognition s /\
  isAlwaysOn (state_of r) = isAlwaysOn s /\
  currentPage (state_of r) = currentPage s /\
  existsb is_stop (trace_of r) = recognition s && isListening s /\
  quiet (trace_of r).
Proof.
  destruct s as [rec lis on page].
  unfold stopListening, updateVoiceStatus, try_catchM, lift, call, emit, get,
    modify, mbind, m_bind, mret, m_ret, when_present, trace_of, state_of,
    outcome_of, quiet.
  cbn.
  destruct rec, lis; cbn; try (repeat split; reflexivity).
  destruct (throws w RecognitionStop); cbn; [repeat split; reflexivity|].
  destruct (getElementById _ "voice-status-text"),
    (getElementById _ "voice-indicator"),
    (getElementById _ "btn-voice-toggle"); cbn; repeat split; reflexivity.
Qed.

End StopFacts.

(** ** Page context *)

Module PageFacts.
Import JsString Regex Dom Trace Voice Session Spec Observe Examples.
Import Notions MoreExamples.
Import SessionFacts ListeningFacts.

Lemma setAlwaysOnMode_on w s :
  let r := setAlwaysOnMode w true s in
  currentPage (state_of r) = currentPage s /\
  isAlwaysOn (state_of r) = true /\
  existsb is_timer (trace_of r) = false.
Proof.
  unfold setAlwaysOnMode.
  pose proof (startListening_run w (set_isAlwaysOn true s))
    as (_ & _ & _ & Ha & Hp & Ht & _).
  destruct (startListening w (set_isAlwaysOn true s)) as [[t1 s1] [b|]] eqn:E;
    unfold state_of, outcome_of, trace_of in *; simpl in Ha, Hp, Ht.
  - destruct (updateVoiceStatus_run w s1) as (t2 & Hu & Hq & _).
    unfold mbind, m_bind, modify. cbn -[startListening updateVoiceStatus].
    rewrite E. cbn -[updateVoiceStatus]. rewrite Hu. cbn.
    rewrite ?app_nil_r, existsb_app, Ht, Hq. auto.
  - unfold mbind, m_bind, modify. cbn -[startListening].
    rewrite E. cbn. auto.
Qed.

Lemma initVoiceForPage_unfold w page autoStart s :
  initVoiceForPage w page autoStart s =
    if autoStart && negb (isAlwaysOn s) then
      match setAlwaysOnMode w true (set_currentPage page s) with
      | (t, s', Ok _) =>
          ((t ++ [SetTimeout 1000 (AnnouncePage page)])%list, s', Ok tt)
      | (t, s', Raised) => (t, s', Raised)
      end
    else ([SetTimeout 1000 (AnnouncePage page)], set_currentPage page s, Ok tt).
Proof.
  unfold initVoiceForPage, setCurrentPage, mbind, m_bind, modify, get.
  cbn -[setAlwaysOnMode].
  destruct (autoStart && negb (isAlwaysOn s)).
  - destruct (setAlwaysOnMode w true (set_currentPage page s))
      as [[t s'] [[]|]]; reflexivity.
  - reflexivity.
Qed.

(** X18. [initVoiceForPage] always leaves the page context at the page
    given and the always-on flag at [autoStart || isAlwaysOn]. When it
    returns, the last thing it did was to schedule the greeting of that page
    at 1000 ms, and that is its only timer; it raises only on the path that
    turns always-on mode on, and then no greeting is scheduled. The greeting
    of a page other than "home" and "voting" says and does nothing. *)
Theorem initVoiceForPage_result (w : World) (page : string)
    (autoStart : bool) (s : State) :
  let r := initVoiceForPage w page autoStart s in
  currentPage (state_of r) = page /\
  isAlwaysOn (state_of r) = autoStart || isAlwaysOn s /\
  (outcome_of r = Ok tt ->
     exists t, trace_of r = (t ++ [SetTimeout 1000 (AnnouncePage page)])%list /\
               existsb is_timer t = false) /\
  (outcome_of r = Raised ->
     existsb is_timer (trace_of r) = false /\
     autoStart = true /\ isAlwaysOn s = false) /\
  (page <> "home" -> page <> "voting" ->
     forall w' s', run_task w' (AnnouncePage page) s' = ([], s', Ok tt)).
Proof.
  cbn zeta. rewrite initVoiceForPage_unfold.
  assert (Hlast : page <> "home" -> page <> "voting" ->
     forall w' s', run_task w' (AnnouncePage page) s' = ([], s', Ok tt)).
  { intros Hh Hv w' s'. unfold run_task.
    destruct (String.eqb_spec page "home"); [contradiction|].
    destruct (String.eqb_spec page "voting"); [contradiction|]. reflexivity. }
  destruct (autoStart && negb (isAlwaysOn s)) eqn:Hc.
  - apply andb_true_iff in Hc as [-> Hc]. apply negb_true_iff in Hc.
    pose proof (setAlwaysOnMode_on w (set_currentPage page s)) as (Hp & Ha & Ht).
    destruct (setAlwaysOnMode w true (set_currentPage page s))
      as [[t1 s1] [[]|]];
      unfold state_of, outcome_of, trace_of in *; simpl in Hp, Ha, Ht |- *.
    + repeat split; auto; try discriminate.
      intros _. exists t1. auto.
    + repeat split; auto; discriminate.
  - unfold state_of, outcome_of, trace_of. simpl.
    repeat split; auto; try discriminate.
    + destruct autoStart, (isAlwaysOn s); simpl in *; congruence.
    + intros _. exists []. split; reflexivity.
Qed.

Lemma initVoiceForPage_result_witness :
  run_task voting_page (AnnouncePage "login") listening = ([], listening, Ok tt).
Proof.
  exact (proj2 (proj2 (proj2 (proj2
     (initVoiceForPage_result voting_page "login" true listening))))
     ltac:(discriminate) ltac:(discriminate) voting_page listening).
Defined.
End PageFacts.

(** ** Reading the page aloud *)

Module ReadingFacts.
Import JsString Regex RegexReplace Reading Dom Trace Spec Observe Notions.
Import StringFacts.

Lemma m_star_space_end s : forall bef,
  m_star pos Space bef s None (fun q _ => Some q) = Some (run_end bef s).
Proof.
  induction s as [|c s IH]; intros bef; simpl; [reflexivity|].
  destruct (is_space c); [rewrite IH|]; reflexivity.
Qed.

Lemma rest_run_end s : forall bef, rest (run_end bef s) = trimStart s.
Proof.
  induction s as [|c s IH]; intros bef; simpl; [reflexivity|].
  destruct (is_space c); [apply IH | reflexivity].
Qed.

Lemma match_end_spaces bef s :
  match_end false (Plus Space) (Pos bef s) =
    match s with
    | String c s' => if is_space c then Some (run_end (Some c) s') else None
    | EmptyString => None
    end.
Proof.
  unfold match_end. simpl. unfold m_plus. simpl.
  destruct s as [|c s']; [reflexivity|].
  destruct (is_space c); [apply m_star_space_end | reflexivity].
Qed.

Lemma length_trimStart s : (String.length (trimStart s) <= String.length s)%nat.
Proof.
  induction s as [|c s IH]; simpl; [lia|].
  destruct (is_space c); simpl; lia.
Qed.

Lemma squeeze_run s : squeeze true s = squeeze false (trimStart s).
Proof.
  induction s as [|c s IH]; simpl; [reflexivity|].
  destruct (is_space c) eqn:Hc; [exact IH|]. simpl. rewrite Hc. reflexivity.
Qed.

(** With fuel for every character, the global replacement of [\s+] by one
    space squeezes the white space. *)
Lemma replace_from_spaces fuel : forall p,
  (String.length (rest p) < fuel)%nat ->
  replace_from fuel false (Plus Space) " " p = squeeze false (rest p).
Proof.
  induction fuel as [|fuel IH]; intros [bef s] Hlen; [simpl in Hlen; lia|].
  cbn [replace_from]. rewrite match_end_spaces. cbn [rest] in *.
  destruct s as [|c s']; [reflexivity|].
  simpl in Hlen. simpl squeeze.
  destruct (is_space c) eqn:Hc.
  - rewrite rest_run_end.
    pose proof (length_trimStart s') as Hl.
    destruct (Nat.ltb_spec (String.length (trimStart s'))
                (String.length (String c s'))) as [_|Hge];
      [|simpl in Hge; lia].
    rewrite IH by (rewrite rest_run_end; lia).
    rewrite rest_run_end, squeeze_run. reflexivity.
  - rewrite IH by (simpl; lia). reflexivity.
Qed.

Lemma replace_all_spaces text :
  replace_all false (Plus Space) " " text = squeeze false text.
Proof. unfold replace_all. apply replace_from_spaces. simpl. lia. Qed.

Lemma cleanText_squeeze text : cleanText text = trim (squeeze false text).
Proof. unfold cleanText. rewrite replace_all_spaces. reflexivity. Qed.

Lemma spaced_squeeze s : forall b, spaced b (squeeze b s) = true.
Proof.
  induction s as [|c s IH]; intros b; simpl; [reflexivity|].
  destruct (is_space c) eqn:Hc.
  - destruct b; [apply IH|]. simpl. rewrite IH. reflexivity.
  - simpl. rewrite Hc. apply IH.
Qed.

Lemma spaced_weaken s : spaced true s = true -> spaced false s = true.
Proof.
  destruct s as [|c s]; simpl; [auto|].
  destruct (is_space c); [|auto]. rewrite andb_false_r. discriminate.
Qed.

Lemma spaced_no_lead s :
  spaced false s = true -> starts_with_space s = false -> spaced true s = true.
Proof.
  destruct s as [|c s]; simpl; [auto|]. intros H E. rewrite E in *. exact H.
Qed.

Lemma spaced_any b s : spaced b s = true -> spaced false s = true.
Proof. destruct b; [apply spaced_weaken | auto]. Qed.

Lemma spaced_trimStart s : spaced false s = true -> spaced false (trimStart s) = true.
Proof.
  induction s as [|c s IH]; simpl; [auto|].
  destruct (is_space c) eqn:Hc; [|simpl; rewrite Hc; auto].
  intros H. apply andb_true_iff in H as [_ H]. apply IH, spaced_weaken, H.
Qed.

Lemma spaced_trimEnd s : forall b, spaced b s = true -> spaced b (trimEnd s) = true.
Proof.
  induction s as [|c s IH]; intros b; simpl; [auto|].
  destruct (is_space c && is_empty (trimEnd s)) eqn:E; [reflexivity|].
  simpl. destruct (is_space c).
  - intros H. apply andb_true_iff in H as [H1 H2]. rewrite H1. simpl. apply IH, H2.
  - apply IH.
Qed.

Lemma single_spaced_intro s : forall a,
  spaced a s = true -> ends_with_space s = false ->
  (is_empty s = true -> a = false) -> single_spaced a s = true.
Proof.
  induction s as [|c s IH]; intros a Hs He Ha.
  - simpl. rewrite Ha; reflexivity.
  - simpl in Hs |- *. destruct (is_space c) eqn:Hc.
    + apply andb_true_iff in Hs as [Hs1 Hs2]. rewrite Hs1. simpl.
      apply IH; [exact Hs2 | | ].
      * destruct s; [simpl in He; congruence | exact He].
      * destruct s; [simpl in He; congruence | discriminate].
    + apply IH; [exact Hs | | reflexivity].
      destruct s; [reflexivity | exact He].
Qed.

Lemma filter_app p a b : filter p (a +:+ b) = filter p a +:+ filter p b.
Proof.
  induction a as [|c a IH]; [reflexivity|].
  rewrite append_cons. simpl. destruct (p c); rewrite IH; reflexivity.
Qed.

Lemma filter_visible_spaces s :
  forallb is_space s = true -> filter visible s = "".
Proof.
  induction s as [|c s IH]; simpl; [reflexivity|].
  intros H. apply andb_true_iff in H as [Hc H]. unfold visible at 1.
  rewrite Hc. simpl. auto.
Qed.

Lemma append_empty_r s : s +:+ "" = s.
Proof. induction s as [|c s IH]; [reflexivity|]. rewrite append_cons, IH. reflexivity. Qed.

Lemma filter_visible_trim s : filter visible (trim s) = filter visible s.
Proof.
  destruct (trim_spec s) as (pre & post & Hs & Hpre & Hpost & _).
  rewrite Hs at 2. rewrite !filter_app.
  rewrite (filter_visible_spaces _ Hpre), (filter_visible_spaces _ Hpost).
  rewrite append_nil, append_empty_r. reflexivity.
Qed.

Lemma filter_visible_squeeze s : forall b,
  filter visible (squeeze b s) = filter visible s.
Proof.
  induction s as [|c s IH]; intros b; simpl; [reflexivity|].
  unfold visible at 2. destruct (is_space c) eqn:Hc; simpl.
  - destruct b; [apply IH|]. simpl. apply IH.
  - unfold visible at 1. rewrite Hc. simpl. rewrite IH. reflexivity.
Qed.

Lemma filter_visible_empty s :
  filter visible s = "" -> forallb is_space s = true.
Proof.
  induction s as [|c s IH]; simpl; [reflexivity|].
  unfold visible at 1. destruct (is_space c); simpl; [auto | discriminate].
Qed.

Lemma trim_spaces s : forallb is_space s = true -> trim s = "".
Proof.
  intros H. unfold trim.
  assert (E : trimStart s = "").
  { induction s as [|c s IH]; simpl; [reflexivity|].
    simpl in H. apply andb_true_iff in H as [Hc H]. rewrite Hc. auto. }
  rewrite E. reflexivity.
Qed.

Lemma squeeze_spaces s : forall b,
  forallb is_space s = true -> forallb is_space (squeeze b s) = true.
Proof.
  induction s as [|c s IH]; intros b; simpl; [reflexivity|].
  intros H. apply andb_true_iff in H as [Hc H]. rewrite Hc.
  destruct b; simpl; auto.
Qed.

Lemma cleanText_clean text :
  filter visible (cleanText text) = filter visible text /\
  (is_empty (cleanText text) = true <-> forallb is_space text = true) /\
  (is_empty (cleanText text) = false ->
   single_spaced true (cleanText text) = true).
Proof.
  rewrite cleanText_squeeze. split; [|split].
  - rewrite filter_visible_trim. apply filter_visible_squeeze.
  - split.
    + intros H. apply is_empty_true in H.
      apply filter_visible_empty.
      rewrite <- (filter_visible_squeeze text false), <- filter_visible_trim, H.
      reflexivity.
    + intros H. rewrite trim_spaces; [reflexivity|]. apply squeeze_spaces, H.
  - intros Hne. apply single_spaced_intro.
    + unfold trim. apply spaced_trimEnd, spaced_no_lead.
      * apply spaced_trimStart, spaced_squeeze.
      * apply trimStart_no_lead.
    + apply trimEnd_no_trail.
    + rewrite Hne. discriminate.
Qed.

(** X19. [readPageContent] always speaks exactly once and does nothing
    else, and what it speaks is never empty and is single-spaced: no white
    space but single plain spaces between other characters. The cleaning of
    the text ([replace(/\s+/g, ' ').trim()], with the replacement run by the
    matcher) keeps every character that is not white space, in order, and
    gives the empty string exactly for a text of white space only, for which
    the fixed message is spoken. *)
Theorem readPageContent_speaks_clean (d : Document)
    (content_of : Element -> Content) :
  (forall text,
     filter visible (cleanText text) = filter visible text /\
     (is_empty (cleanText text) = true <-> forallb is_space text = true)) /\
  exists message,
    readPageContent d content_of = ([Speak message], Ok tt) /\
    is_empty message = false /\
    single_spaced true message = true.
Proof.
  split.
  - intros text. destruct (cleanText_clean text) as (H1 & H2 & _). auto.
  - unfold readPageContent.
    destruct (or_else _ _) as [e|];
      [|eexists; repeat split; reflexivity].
    set (text := if is_empty (innerText (content_of e))
                 then textContent (content_of e)
                 else innerText (content_of e)).
    destruct (is_empty (cleanText text)) eqn:E.
    + eexists. repeat split; reflexivity.
    + exists (cleanText text). repeat split; [exact E|].
      apply (cleanText_clean text), E.
Qed.
End ReadingFacts.
